(** * gofakes3: the S3 front-end, checked against its specification

    A shallow embedding of the request handlers of [gofakes3.go] and of the
    range parser of [range.go], with the parts of Go's standard library they
    call ([strings], [strconv], [encoding/hex], [net/http]'s header maps)
    written out as functions on byte strings.

    Go's [string] is a byte sequence: it is [string] here, one [ascii] per
    byte.  [int64] and [int] are [Z] with the wrap-around written out. *)

From Stdlib Require Import ZArith Lia Bool List Ascii String.
From Stdlib Require Strings.Byte DecimalString.
From stdpp Require Import base option list gmap strings fin_maps.

Local Open Scope string_scope.
Local Open Scope Z_scope.

(** ** Machine integers *)

Module GoInt.

Definition min_int64 : Z := - 2 ^ 63.
Definition max_int64 : Z := 2 ^ 63 - 1.
Definition max_uint64 : Z := 2 ^ 64 - 1.

(** Two's complement wrap-around of a mathematical integer to [int64]. *)
Definition wrap64 (x : Z) : Z := (x + 2 ^ 63) mod 2 ^ 64 - 2 ^ 63.

Definition in_int64 (x : Z) : Prop := min_int64 <= x <= max_int64.

Definition add64 (x y : Z) : Z := wrap64 (x + y).
Definition sub64 (x y : Z) : Z := wrap64 (x - y).
Definition neg64 (x : Z) : Z := wrap64 (- x).

End GoInt.

(** ** Package [strings] *)

Module GoStrings.

(** [len(s)] *)
Definition len (s : string) : Z := Z.of_nat (String.length s).

(** [strings.HasPrefix(s, prefix)] *)
Fixpoint HasPrefix (s prefix : string) : bool :=
  match prefix, s with
  | EmptyString, _ => true
  | String _ _, EmptyString => false
  | String p prefix', String c s' => if Ascii.eqb p c then HasPrefix s' prefix' else false
  end.

(** [s[n:]] *)
Fixpoint slice_from (n : nat) (s : string) : string :=
  match n, s with
  | O, _ => s
  | S _, EmptyString => EmptyString
  | S n', String _ s' => slice_from n' s'
  end.

(** [s[:n]] *)
Fixpoint slice_to (n : nat) (s : string) : string :=
  match n, s with
  | O, _ => EmptyString
  | S _, EmptyString => EmptyString
  | S n', String c s' => String c (slice_to n' s')
  end.

(** [strings.Index(s, substr)]: the index of the first instance of [substr]
    in [s], or [-1]. *)
Fixpoint Index (s substr : string) : Z :=
  if HasPrefix s substr then 0
  else match s with
       | EmptyString => -1
       | String _ s' => let i := Index s' substr in if i <? 0 then -1 else i + 1
       end.

(** [strings.Split(s, sep)] for a one-byte separator: all the substrings
    between separators; a string without separator gives the one-element
    list of itself. *)
Fixpoint Split (s : string) (sep : ascii) : list string :=
  match s with
  | EmptyString => [EmptyString]
  | String c s' =>
      if Ascii.eqb c sep then EmptyString :: Split s' sep
      else match Split s' sep with
           | h :: t => String c h :: t
           | [] => [String c EmptyString]
           end
  end.

(** The ASCII white space of [strings.TrimSpace]'s fast path:
    tab, line feed, vertical tab, form feed, carriage return, space. *)
Definition asciiSpace (c : ascii) : bool :=
  let n := nat_of_ascii c in
  ((9 <=? n) && (n <=? 13))%nat || (n =? 32)%nat.

(** The other code points of [unicode.IsSpace], by their UTF-8 encodings:
    U+0085 and U+00A0 (two bytes), U+1680, U+2000 to U+200A, U+2028, U+2029,
    U+202F, U+205F and U+3000 (three bytes). *)
Definition space2 (a b : ascii) : bool :=
  (nat_of_ascii a =? 194)%nat &&
  ((nat_of_ascii b =? 133)%nat || (nat_of_ascii b =? 160)%nat).

Definition space3 (a b c : ascii) : bool :=
  let x := nat_of_ascii a in
  let y := nat_of_ascii b in
  let z := nat_of_ascii c in
  ((x =? 225) && (y =? 154) && (z =? 128))%nat
  || ((x =? 226) && (y =? 128) &&
      (((128 <=? z) && (z <=? 138)) || (z =? 168) || (z =? 169) || (z =? 175)))%nat
  || ((x =? 226) && (y =? 129) && (z =? 159))%nat
  || ((x =? 227) && (y =? 128) && (z =? 128))%nat.

(** [strings.TrimLeftFunc(s, unicode.IsSpace)]: drop leading white-space
    runes.  A byte that starts no white-space rune (an invalid encoding
    included: it decodes to U+FFFD) stops the scan. *)
Fixpoint TrimLeftSpace (s : string) : string :=
  match s with
  | EmptyString => EmptyString
  | String a s1 =>
      if asciiSpace a then TrimLeftSpace s1
      else match s1 with
           | EmptyString => s
           | String b s2 =>
               if space2 a b then TrimLeftSpace s2
               else match s2 with
                    | EmptyString => s
                    | String c s3 => if space3 a b c then TrimLeftSpace s3 else s
                    end
           end
  end.

(** The same scan from the right end, on the reversed byte sequence:
    [utf8.DecodeLastRuneInString] sees a white-space rune exactly when the
    string ends with one of the encodings above. *)
Fixpoint TrimLeftSpaceRev (s : string) : string :=
  match s with
  | EmptyString => EmptyString
  | String a s1 =>
      if asciiSpace a then TrimLeftSpaceRev s1
      else match s1 with
           | EmptyString => s
           | String b s2 =>
               if space2 b a then TrimLeftSpaceRev s2
               else match s2 with
                    | EmptyString => s
                    | String c s3 => if space3 c b a then TrimLeftSpaceRev s3 else s
                    end
           end
  end.

Definition string_rev (s : string) : string :=
  string_of_list_ascii (rev (list_ascii_of_string s)).

Definition TrimRightSpace (s : string) : string :=
  string_rev (TrimLeftSpaceRev (string_rev s)).

(** [strings.TrimSpace(s)] *)
Definition TrimSpace (s : string) : string := TrimRightSpace (TrimLeftSpace s).

End GoStrings.

(** ** Package [strconv] *)

Module Strconv.

Import GoInt.

(** The [Err] field of a [NumError]: [ErrSyntax] or [ErrRange]. *)
Inductive NumError := ErrSyntax | ErrRange.

Definition is_digit (c : ascii) : bool :=
  let n := nat_of_ascii c in ((48 <=? n) && (n <=? 57))%nat.

(** The digit loop of [ParseUint(s, 10, bitSize)].  The accumulator [n] is a
    [uint64]; [n >= cutoff] catches the overflow of [n*10] and
    [n1 > maxVal] that of [n+d] (below the cutoff, [n*10+d] can still pass
    [2^64 - 1], which the source sees as [n1 < n]). *)
Fixpoint ParseUint_loop (s : string) (bitSize : Z) (n : Z) : Z * option NumError :=
  match s with
  | EmptyString => (n, None)
  | String c s' =>
      if is_digit c then
        let d := Z.of_nat (nat_of_ascii c) - 48 in
        let cutoff := max_uint64 / 10 + 1 in
        let maxVal := 2 ^ bitSize - 1 in
        if n >=? cutoff then (maxVal, Some ErrRange)
        else
          let n1 := n * 10 + d in
          if (n1 >? max_uint64) || (n1 >? maxVal) then (maxVal, Some ErrRange)
          else ParseUint_loop s' bitSize n1
      else (0, Some ErrSyntax)
  end.

(** [strconv.ParseUint(s, 10, bitSize)] with [bitSize] already resolved
    (a [bitSize] of 0 stands for the size of [int]). *)
Definition ParseUint (s : string) (bitSize : Z) : Z * option NumError :=
  match s with
  | EmptyString => (0, Some ErrSyntax)
  | _ => ParseUint_loop s bitSize 0
  end.

(** [strconv.ParseInt(s, 10, bitSize)] *)
Definition ParseInt (s : string) (bitSize : Z) : Z * option NumError :=
  match s with
  | EmptyString => (0, Some ErrSyntax)
  | String c0 rest =>
      let neg := Ascii.eqb c0 "-"%char in
      let s1 := if Ascii.eqb c0 "+"%char || neg then rest else s in
      let '(un, err) := ParseUint s1 bitSize in
      match err with
      | Some ErrSyntax => (0, Some ErrSyntax)
      | _ =>
          let cutoff := 2 ^ (bitSize - 1) in
          if negb neg && (un >=? cutoff) then (cutoff - 1, Some ErrRange)
          else if neg && (un >? cutoff) then (- cutoff, Some ErrRange)
          else (if neg then - un else un, None)
      end
  end.

End Strconv.

(** ** Package [encoding/hex] *)

Module Hex.

Definition hextable : string := "0123456789abcdef".

Definition hexdigit (n : N) : ascii :=
  match String.get (N.to_nat n) hextable with
  | Some c => c
  | None => "0"%char
  end.

(** [hex.EncodeToString(src)]: two digits of [hextable] per byte, the high
    nibble [v >> 4] first, then [v & 0x0f]. *)
Fixpoint EncodeToString (src : list Byte.byte) : string :=
  match src with
  | [] => EmptyString
  | v :: src' =>
      let n := Byte.to_N v in
      String (hexdigit (N.shiftr n 4))
        (String (hexdigit (N.land n 15)) (EncodeToString src'))
  end.

End Hex.

(** ** The error model *)

Module S3Error.

(** Modelled from the spec: the error codes of section 4.8 ([error.go] is not
    among the sources); only the codes the handlers below return are listed. *)
Inductive ErrorCode :=
  | ErrBadDigest
  | ErrIncompleteBody
  | ErrIncorrectNumberOfFilesInPostRequest
  | ErrInternal
  | ErrInvalidDigest
  | ErrInvalidPart
  | ErrInvalidRange
  | ErrKeyTooLong
  | ErrMalformedPOSTRequest
  | ErrMetadataTooLarge
  | ErrMissingContentLength
  | ErrNoSuchBucket
  | ErrNoSuchKey
  | ErrNoSuchUpload
  | ErrRequestTimeTooSkewed.

(** Modelled from the spec: a Go [error] value as the handlers see it.  An
    [ErrorCode] is an error by itself; [ErrorMessage] and [ResourceError]
    wrap a code with a message or a resource; anything else (an I/O or
    storage failure) is a foreign error. *)
Inductive error :=
  | CodeError (code : ErrorCode)
  | ResponseError (code : ErrorCode) (message resource : string)
  | ForeignError (text : string).

Definition ErrorMessage (code : ErrorCode) (message : string) : error :=
  ResponseError code message "".

Definition ResourceError (code : ErrorCode) (resource : string) : error :=
  ResponseError code "" resource.

(** Modelled from the spec: the code written on the wire for an error
    (section 7: one [InternalError] code covers unexpected failures). *)
Definition error_code (e : error) : ErrorCode :=
  match e with
  | CodeError c => c
  | ResponseError c _ _ => c
  | ForeignError _ => ErrInternal
  end.

(** A Go result pair [(value, err)]. *)
Inductive result (A : Type) :=
  | Ok (a : A)
  | Err (e : error).
Arguments Ok {A} a.
Arguments Err {A} e.

End S3Error.

(** ** [range.go] *)

Module RangeGo.

Import GoInt GoStrings Strconv S3Error.

Record ObjectRange := { Start : Z; Length : Z }.

Record ObjectRangeRequest := { rqStart : Z; rqEnd : Z; FromEnd : bool }.

Definition RangeNoEnd : Z := -1.

(** [ObjectRangeRequest.Range(size)]; a nil receiver is [None]. *)
Definition Range (o : option ObjectRangeRequest) (size : Z) : option ObjectRange :=
  match o with
  | None => None
  | Some o =>
      if negb (FromEnd o) then
        let start := rqStart o in
        let end_ := rqEnd o in
        let length :=
          if rqEnd o =? RangeNoEnd then sub64 size (rqStart o)
          else
            let end_ := if end_ >=? size then sub64 size 1 else end_ in
            add64 (sub64 end_ (rqStart o)) 1 in
        Some {| Start := start; Length := length |}
      else
        let end_ := rqEnd o in
        let end_ := if end_ >? size then size else end_ in
        let start := sub64 size end_ in
        let length := sub64 size start in
        Some {| Start := start; Length := length |}
  end.

(** [parseRangeHeader(s)] *)
Definition parseRangeHeader (s : string) : result (option ObjectRangeRequest) :=
  if String.eqb s "" then Ok None
  else
    let b := "bytes=" in
    if negb (HasPrefix s b) then Err (CodeError ErrInvalidRange)
    else
      let ranges := Split (slice_from (String.length b) s) ","%char in
      if (1 <? length ranges)%nat then
        Err (ErrorMessage ErrInvalidRange "multiple ranges not supported")
      else
        let rnge := TrimSpace (nth 0 ranges "") in
        if len rnge =? 0 then Err (CodeError ErrInvalidRange)
        else
          let i := Index rnge "-" in
          if i <? 0 then Err (CodeError ErrInvalidRange)
          else
            let start := TrimSpace (slice_to (Z.to_nat i) rnge) in
            let end_ := TrimSpace (slice_from (Z.to_nat (i + 1)) rnge) in
            if String.eqb start "" then
              let '(i, err) := ParseInt end_ 64 in
              if bool_decide (err ≠ None) then Err (CodeError ErrInvalidRange)
              else Ok (Some {| rqStart := 0; rqEnd := i; FromEnd := true |})
            else
              let '(i, err) := ParseInt start 64 in
              if bool_decide (err ≠ None) || (i <? 0) then Err (CodeError ErrInvalidRange)
              else
                let oStart := i in
                if negb (String.eqb end_ "") then
                  let '(i, err) := ParseInt end_ 64 in
                  if bool_decide (err ≠ None) || (oStart >? i) then
                    Err (CodeError ErrInvalidRange)
                  else Ok (Some {| rqStart := oStart; rqEnd := i; FromEnd := false |})
                else Ok (Some {| rqStart := oStart; rqEnd := RangeNoEnd; FromEnd := false |}).

End RangeGo.

(** ** Package [time] *)

Module GoTime.

Import GoInt.

(** An instant, in nanoseconds since the zero [Time] (January 1 of year 1,
    00:00:00 UTC), which is instant 0. *)
Definition Time : Type := Z.

(** A [Duration], an [int64] count of nanoseconds. *)
Definition Duration : Type := Z.

Definition zeroTime : Time := 0.

Definition Second : Duration := 1000000000.
Definition Minute : Duration := 60 * Second.

(** [t.Sub(u)] on wall-clock readings (a parsed time has no monotonic
    reading): the difference, or the largest (smallest) [Duration] when it
    does not fit. *)
Definition Sub (t u : Time) : Duration :=
  let d := t - u in
  if d >? max_int64 then max_int64
  else if d <? min_int64 then min_int64
  else d.

End GoTime.

(** ** Package [net/http]: header maps, query values, response writers *)

Module NetHttp.

Definition in_range (lo hi : nat) (c : ascii) : bool :=
  let n := nat_of_ascii c in ((lo <=? n) && (n <=? hi))%nat.

Definition is_lower_alpha : ascii -> bool := in_range 97 122.
Definition is_upper_alpha : ascii -> bool := in_range 65 90.

(** The token characters of a header field name. *)
Definition validHeaderFieldByte (c : ascii) : bool :=
  is_lower_alpha c || is_upper_alpha c || in_range 48 57 c
  || existsb (Ascii.eqb c)
       ["!"; "#"; "$"; "%"; "&"; "'"; "*"; "+"; "-"; "."; "^"; "_"; "`"; "|"; "~"]%char.

Fixpoint all_bytes (p : ascii -> bool) (s : string) : bool :=
  match s with
  | EmptyString => true
  | String c s' => p c && all_bytes p s'
  end.

(** First letter and every letter after a dash in upper case, the others in
    lower case. *)
Fixpoint canonical_loop (upper : bool) (s : string) : string :=
  match s with
  | EmptyString => EmptyString
  | String c s' =>
      let c' :=
        if upper && is_lower_alpha c then ascii_of_nat (nat_of_ascii c - 32)
        else if negb upper && is_upper_alpha c then ascii_of_nat (nat_of_ascii c + 32)
        else c in
      String c' (canonical_loop (Ascii.eqb c' "-"%char) s')
  end.

(** [textproto.CanonicalMIMEHeaderKey(s)]: a key with a byte that is not a
    token character is returned unchanged. *)
Definition CanonicalMIMEHeaderKey (s : string) : string :=
  if all_bytes validHeaderFieldByte s then canonical_loop true s else s.

(** [http.Header] and [url.Values] are both [map[string][]string]. *)
Abbreviation Header := (gmap string (list string)).
Abbreviation Values := (gmap string (list string)).

(** [h.Get(key)]: the first value under the canonical form of [key]. *)
Definition Header_Get (h : Header) (key : string) : string :=
  match h !! CanonicalMIMEHeaderKey key with
  | Some (v :: _) => v
  | _ => ""
  end.

(** [h.Set(key, value)] *)
Definition Header_Set (h : Header) (key value : string) : Header :=
  <[CanonicalMIMEHeaderKey key := [value]]> h.

(** [h.Add(key, value)] *)
Definition Header_Add (h : Header) (key value : string) : Header :=
  let k := CanonicalMIMEHeaderKey key in
  <[k := (default [] (h !! k) ++ [value])%list]> h.

(** [v.Get(key)] of [url.Values]: no canonical form, the key as it is. *)
Definition Values_Get (v : Values) (key : string) : string :=
  match v !! key with
  | Some (x :: _) => x
  | _ => ""
  end.

(** An [http.ResponseWriter]: the header map the handler edits, and what
    has gone on the wire.  The first [WriteHeader] or [Write] sends the
    status line with a copy of the header map as it is then; later edits of
    the map do not reach the client. *)
Record ResponseWriter := {
  rw_header : Header;
  rw_sent : option (Z * Header);
  rw_body : list Byte.byte
}.

Definition newResponseWriter : ResponseWriter :=
  {| rw_header := ∅; rw_sent := None; rw_body := [] |}.

Definition WriteHeader (status : Z) (w : ResponseWriter) : ResponseWriter :=
  match rw_sent w with
  | Some _ => w
  | None => {| rw_header := rw_header w;
               rw_sent := Some (status, rw_header w);
               rw_body := rw_body w |}
  end.

Definition Write (data : list Byte.byte) (w : ResponseWriter) : ResponseWriter :=
  let w := WriteHeader 200 w in
  {| rw_header := rw_header w; rw_sent := rw_sent w; rw_body := (rw_body w ++ data)%list |}.

Definition SetHeader (key value : string) (w : ResponseWriter) : ResponseWriter :=
  {| rw_header := Header_Set (rw_header w) key value;
     rw_sent := rw_sent w; rw_body := rw_body w |}.

Definition AddHeader (key value : string) (w : ResponseWriter) : ResponseWriter :=
  {| rw_header := Header_Add (rw_header w) key value;
     rw_sent := rw_sent w; rw_body := rw_body w |}.

(** The headers the client receives once the handler has returned: the
    copy taken at the first write, or the map itself when nothing was
    written (the server then sends it with status 200). *)
Definition wire_header (w : ResponseWriter) : Header :=
  match rw_sent w with
  | Some (_, h) => h
  | None => rw_header w
  end.

End NetHttp.

(** ** [gofakes3.go] *)

Module GoFakeS3.

Import GoInt GoStrings Strconv S3Error RangeGo GoTime NetHttp.

Definition KeySizeLimit : Z := 1024.
Definition DefaultMetadataSizeLimit : Z := 2000.
Definition DefaultSkewLimit : Duration := 15 * Minute.
Definition MaxUploadPartNumber : Z := 10000.

(** The width of [int]: 64 bits (amd64, arm64). *)
Definition IntSize : Z := 64.

(** A double quote, and a string between double quotes. *)
Definition dquote : string := String (ascii_of_nat 34) EmptyString.
Definition quoted (s : string) : string := dquote ++ s ++ dquote.

(** [fmt.Sprintf("%d", n)] *)
Definition itoa (n : Z) : string :=
  DecimalString.NilZero.string_of_int (Z.to_int n).

(** *** The handler monad

    A handler runs on a state (the storage backend, the upload registry, the
    clock, the response writer) and either finishes with a value and a new
    state or panics (a Go run-time error such as an index out of range). *)
Inductive Exec (S A : Type) :=
  | Done (a : A) (s : S)
  | Panicked.
Arguments Done {S A} a s.
Arguments Panicked {S A}.

Definition M (S A : Type) : Type := S -> Exec S A.

#[global] Instance M_ret {S} : MRet (M S) := fun A a s => Done a s.

#[global] Instance M_bind {S} : MBind (M S) := fun A B f m s =>
  match m s with
  | Done a s' => f a s'
  | Panicked => Panicked
  end.

(** *** Data *)

(** An [io.ReadCloser] handed out by the backend: the bytes it yields, and
    the error (if any) that ends the stream instead of [io.EOF]. *)
Record ReadCloser := { rc_bytes : list Byte.byte; rc_error : option error }.

(** [Object] of the backend contract. *)
Record Object := {
  Name : string;
  Metadata : gmap string string;
  Size : Z;
  Contents : ReadCloser;
  Hash : list Byte.byte;
  ObjRange : option ObjectRange
}.

(** Modelled from the spec: a part of an upload and an upload (section 3,
    [uploader.go] is not among the sources): the parts table maps a part
    number to [(etag, last-modified, bytes)]. *)
Record multipartUploadPart := {
  PartETag : string;
  PartLastModified : Time;
  PartBody : list Byte.byte
}.

Record multipartUpload := {
  ID : string;
  UpBucket : string;
  UpObject : string;
  Meta : gmap string string;
  Initiated : Time;
  parts : gmap Z multipartUploadPart
}.

(** The calls a handler makes to the storage backend, in the order made. *)
Inductive BackendCall :=
  | CallHeadObject (bucket key : string)
  | CallGetObject (bucket key : string) (rnge : option ObjectRangeRequest)
  | CallPutObject (bucket key : string) (meta : gmap string string) (size : Z).

(** [GoFakeS3]: the configuration fields.  [timeSource] gives the instant of
    the n-th reading of the injected clock. *)
Record GoFakeS3 := {
  timeSource : nat -> Time;
  timeSkew : Duration;
  metadataSizeLimit : Z;
  integrityCheck : bool;
  hostBucket : bool
}.

Section Handlers.

(** [Reader] is the type of request body readers ([io.Reader]), [B] the
    state of the storage backend. *)
Context {Reader B : Type}.

(** A file part of a multipart form: its size and what [Open] gives. *)
Record FileHeader := { fh_Size : Z; fh_Open : result Reader }.

(** [multipart.Form] *)
Record Form := {
  Value : gmap string (list string);
  File : gmap string (list FileHeader)
}.

(** [http.Request], the fields the handlers read.  [MultipartForm] is what
    [ParseMultipartForm] leaves in the request, [None] when it fails. *)
Record Request := {
  Method : string;
  Host : string;
  URLPath : string;
  Query : Values;
  ReqHeader : Header;
  ContentLength : Z;
  Body : Reader;
  MultipartForm : option Form
}.

(** The [Backend] interface, the operations the handlers below call.  Go's
    pair of an object pointer and an error is a [result (option Object)]:
    an error, or a pointer that may be nil. *)
Class Backend := {
  HeadObject : string -> string -> B -> result (option Object) * B;
  GetObject : string -> string -> option ObjectRangeRequest -> B ->
              result (option Object) * B;
  PutObject : string -> string -> gmap string string -> Reader -> Z -> B ->
              option error * B
}.

(** What the handlers call outside [gofakes3.go] and [range.go]:
    - [time_Parse s] is [time.Parse("20060102T150405Z", s)], [None] when it
      returns an error (the [Time] it returns then is the zero [Time]);
    - [time_Format t] is [t.In(time.UTC).Format("Mon, 02 Jan 2006 15:04:05")];
    - [md5_Sum] is [md5.Sum]; [xml_Encode] the XML form of an error response;
    - [newHashingReader] and [ReadAll] are the helpers of this package
      ([hash.go], [util.go]) which are not among the sources. *)
Record Env := {
  time_Parse : string -> option Time;
  time_Format : Time -> string;
  md5_Sum : list Byte.byte -> list Byte.byte;
  xml_Encode : error -> list Byte.byte;
  newHashingReader : Reader -> string -> result Reader;
  ReadAll : Reader -> Z -> result (list Byte.byte)
}.

Record State := {
  st_backend : B;
  st_uploads : gmap string multipartUpload;
  st_ticks : nat;
  st_resp : ResponseWriter;
  st_calls : list BackendCall
}.

Context (storage : Backend) (env : Env).

(** The state after one more reading of the clock. *)
Definition tick (s : State) : State :=
  {| st_backend := st_backend s; st_uploads := st_uploads s;
     st_ticks := S (st_ticks s); st_resp := st_resp s;
     st_calls := st_calls s |}.

(** [g.timeSource.Now()] *)
Definition Now (g : GoFakeS3) : M State Time := fun s =>
  Done (timeSource g (st_ticks s)) (tick s).

Definition with_resp (f : ResponseWriter -> ResponseWriter) (s : State) : State :=
  {| st_backend := st_backend s; st_uploads := st_uploads s;
     st_ticks := st_ticks s; st_resp := f (st_resp s);
     st_calls := st_calls s |}.

(** An operation on the response writer [w]. *)
Definition on_resp (f : ResponseWriter -> ResponseWriter) : M State unit := fun s =>
  Done tt (with_resp f s).

(** The state after a call of the backend: the call is recorded and the
    backend state replaced by the one the operation returns. *)
Definition called (c : BackendCall) (b : B) (s : State) : State :=
  {| st_backend := b; st_uploads := st_uploads s;
     st_ticks := st_ticks s; st_resp := st_resp s;
     st_calls := (st_calls s ++ [c])%list |}.

Definition on_backend {A} (c : BackendCall) (op : B -> A * B) : M State A := fun s =>
  let '(a, b) := op (st_backend s) in Done a (called c b s).

Definition panic {A} : M State A := fun _ => Panicked.

(** [formatHeaderTime(t)] *)
Definition formatHeaderTime (t : Time) : string :=
  time_Format env t ++ " GMT".

(** Modelled from the spec: the HTTP status of an error code (section 4.8). *)
Definition Status (code : ErrorCode) : Z :=
  match code with
  | ErrNoSuchBucket | ErrNoSuchKey | ErrNoSuchUpload => 404
  | ErrMissingContentLength => 411
  | ErrInvalidRange => 416
  | ErrRequestTimeTooSkewed => 403
  | ErrInternal => 500
  | _ => 400
  end.

(** Modelled from the spec: the error of the time-skew guard (section 4.2),
    an error response whose code is [RequestTimeTooSkewed]. *)
Definition requestTimeTooSkewed (at_ : Time) (skew : Duration) : error :=
  ResponseError ErrRequestTimeTooSkewed
    "The difference between the request time and the current time is too large" "".

(** [xml.Header] *)
Definition xml_Header : string :=
  "<?xml version=" ++ quoted "1.0" ++ " encoding=" ++ quoted "UTF-8" ++ "?>"
  ++ String (ascii_of_nat 10) EmptyString.

Definition bytes_of_string (s : string) : list Byte.byte :=
  map byte_of_ascii (list_ascii_of_string s).

(** [g.httpError(w, r, err)] *)
Definition httpError (r : Request) (err : error) : M State unit :=
  on_resp (WriteHeader (Status (error_code err)));;
  if negb (String.eqb (Method r) "HEAD") then
    on_resp (SetHeader "Content-Type" "application/xml");;
    on_resp (Write (bytes_of_string xml_Header));;
    on_resp (Write (xml_Encode env err))
  else mret tt.

(** [g.timeSkewMiddleware(handler)], as the function of the request it
    returns. *)
Definition timeSkewMiddleware (g : GoFakeS3) (handler : Request -> M State unit)
    (rq : Request) : M State unit :=
  let timeHdr := Header_Get (ReqHeader rq) "x-amz-date" in
  if negb (String.eqb timeHdr "") then
    let rqTime := default zeroTime (time_Parse env timeHdr) in
    at_ ← Now g;
    let skew := Sub at_ rqTime in
    if (skew <? neg64 (timeSkew g)) || (skew >? timeSkew g) then
      httpError rq (requestTimeTooSkewed at_ (timeSkew g))
    else handler rq
  else handler rq.

(** [metadataSize(meta)]; the running total is an [int]. *)
Definition metadataSize (meta : gmap string string) : Z :=
  map_fold (fun k v total => add64 total (add64 (len k) (len v))) 0 meta.

(** The loop of [metadataHeaders]: [None] when [hv[0]] is out of range. *)
Definition metadataHeaders_loop (headers : gmap string (list string))
    : option (gmap string string) :=
  map_fold (fun hk hv acc =>
      meta ← acc;
      if HasPrefix hk "X-Amz-" then
        match hv with
        | v :: _ => Some (<[hk := v]> meta)
        | [] => None
        end
      else Some meta)
    (Some ∅) headers.

(** [metadataHeaders(headers, at, sizeLimit)]: the map and the error it
    returns, or [None] when it panics. *)
Definition metadataHeaders (headers : gmap string (list string)) (at_ : Time)
    (sizeLimit : Z) : option (gmap string string * option error) :=
  meta ← metadataHeaders_loop headers;
  let meta := <["Last-Modified" := formatHeaderTime at_]> meta in
  if (sizeLimit >? 0) && (metadataSize meta >? sizeLimit) then
    Some (meta, Some (CodeError ErrMetadataTooLarge))
  else Some (meta, None).

Definition lift_panic {A} (o : option A) : M State A :=
  match o with
  | Some a => mret a
  | None => panic
  end.

(** [o.writeHeader(sz, w)] of [ObjectRange] *)
Definition writeHeader (o : option ObjectRange) (sz : Z) (w : ResponseWriter)
    : ResponseWriter :=
  match o with
  | Some o =>
      SetHeader "Content-Length" (itoa (Length o))
        (SetHeader "Content-Range"
           ("bytes " ++ itoa (Start o) ++ "-"
            ++ itoa (sub64 (add64 (Start o) (Length o)) 1) ++ "/" ++ itoa sz) w)
  | None => SetHeader "Content-Length" (itoa sz) w
  end.

(** [for mk, mv := range obj.Metadata { w.Header().Set(mk, mv) }], in the
    order [kvs] in which the map is ranged over. *)
Definition setMetadataHeaders (kvs : list (string * string)) (w : ResponseWriter)
    : ResponseWriter :=
  foldl (fun w kv => SetHeader kv.1 kv.2 w) w kvs.

Definition x_amz_id_2 : string :=
  "LriYPLdmOdAiIfgSm/F1YsViT1LW94/xUQxMsF7xiEb1a0wiIOIxl+zbwZ163pt7".
Definition x_amz_request_id : string := "0A49CE4060975EAC".

(** [g.getObject(bucket, object, w, r)] *)
Definition getObject (g : GoFakeS3) (bucket object : string) (r : Request)
    : M State (option error) :=
  match parseRangeHeader (Header_Get (ReqHeader r) "Range") with
  | Err e => mret (Some e)
  | Ok rnge =>
      res ← on_backend (CallGetObject bucket object rnge) (GetObject bucket object rnge);
      match res with
      | Err e => mret (Some e)
      | Ok None => mret (Some (CodeError ErrInternal))
      | Ok (Some obj) =>
          on_resp (writeHeader (ObjRange obj) (Size obj));;
          on_resp (SetHeader "x-amz-id-2" x_amz_id_2);;
          on_resp (SetHeader "x-amz-request-id" x_amz_request_id);;
          on_resp (setMetadataHeaders (map_to_list (Metadata obj)));;
          at_ ← Now g;
          on_resp (SetHeader "Last-Modified" (formatHeaderTime at_));;
          on_resp (SetHeader "ETag" (quoted (Hex.EncodeToString (Hash obj))));;
          on_resp (SetHeader "Server" "AmazonS3");;
          on_resp (SetHeader "Accept-Ranges" "bytes");;
          on_resp (Write (rc_bytes (Contents obj)));;
          mret (rc_error (Contents obj))
      end
  end.

(** [g.headObject(bucket, object, w, r)] *)
Definition headObject (g : GoFakeS3) (bucket object : string) (r : Request)
    : M State (option error) :=
  res ← on_backend (CallHeadObject bucket object) (HeadObject bucket object);
  match res with
  | Err e => mret (Some e)
  | Ok None => panic
  | Ok (Some obj) =>
      on_resp (SetHeader "x-amz-id-2" x_amz_id_2);;
      on_resp (SetHeader "x-amz-request-id" x_amz_request_id);;
      on_resp (setMetadataHeaders (map_to_list (Metadata obj)));;
      at_ ← Now g;
      on_resp (SetHeader "Last-Modified" (formatHeaderTime at_));;
      on_resp (SetHeader "ETag" (quoted (Hex.EncodeToString (Hash obj))));;
      on_resp (SetHeader "Server" "AmazonS3");;
      on_resp (SetHeader "Content-Length" (itoa (Size obj)));;
      on_resp (SetHeader "Connection" "close");;
      on_resp (SetHeader "Accept-Ranges" "bytes");;
      on_resp (Write []);;
      mret None
  end.

(** The [ETag] that [createObject] and [createObjectBrowserUpload] send. *)
Definition created_etag : string := quoted "fbacf535f27731c9771645a39863328".

(** The request body, behind a hashing reader when the integrity check is
    on and the request has a [Content-MD5] header. *)
Definition bodyReader (g : GoFakeS3) (r : Request) : result Reader :=
  if integrityCheck g then
    let md5Base64 := Header_Get (ReqHeader r) "Content-MD5" in
    if negb (String.eqb md5Base64 "") then newHashingReader env (Body r) md5Base64
    else Ok (Body r)
  else Ok (Body r).

(** [g.createObject(bucket, object, w, r)] *)
Definition createObject (g : GoFakeS3) (bucket object : string) (r : Request)
    : M State (option error) :=
  at_ ← Now g;
  mh ← lift_panic (metadataHeaders (ReqHeader r) at_ (metadataSizeLimit g));
  match mh with
  | (_, Some e) => mret (Some e)
  | (meta, None) =>
      let '(size, err) := ParseInt (Header_Get (ReqHeader r) "Content-Length") 64 in
      if bool_decide (err ≠ None) || (size <=? 0) then
        mret (Some (CodeError ErrMissingContentLength))
      else if len object >? KeySizeLimit then
        mret (Some (ResourceError ErrKeyTooLong object))
      else
        match bodyReader g r with
        | Err e => mret (Some e)
        | Ok rdr =>
            perr ← on_backend (CallPutObject bucket object meta size)
                              (PutObject bucket object meta rdr size);
            match perr with
            | Some e => mret (Some e)
            | None =>
                on_resp (SetHeader "Access-Control-Allow-Origin" "*");;
                on_resp (SetHeader "x-amz-id-2" x_amz_id_2);;
                on_resp (SetHeader "x-amz-request-id" x_amz_request_id);;
                on_resp (SetHeader "ETag" created_etag);;
                on_resp (SetHeader "Server" "AmazonS3");;
                on_resp (Write []);;
                mret None
            end
        end
  end.

(** [g.createObjectBrowserUpload(bucket, w, r)] *)
Definition createObjectBrowserUpload (g : GoFakeS3) (bucket : string) (r : Request)
    : M State (option error) :=
  match MultipartForm r with
  | None => mret (Some (CodeError ErrMalformedPOSTRequest))
  | Some form =>
      match default [] (Value form !! "key") with
      | [key] =>
          match default [] (File form !! "file") with
          | [fileHeader] =>
              match fh_Open fileHeader with
              | Err e => mret (Some e)
              | Ok infile =>
                  at_ ← Now g;
                  mh ← lift_panic (metadataHeaders (Value form) at_ (metadataSizeLimit g));
                  match mh with
                  | (_, Some e) => mret (Some e)
                  | (meta, None) =>
                      if len key >? KeySizeLimit then
                        mret (Some (ResourceError ErrKeyTooLong key))
                      else
                        perr ← on_backend (CallPutObject bucket key meta (fh_Size fileHeader))
                                 (PutObject bucket key meta infile (fh_Size fileHeader));
                        match perr with
                        | Some e => mret (Some e)
                        | None =>
                            on_resp (SetHeader "Access-Control-Allow-Origin" "*");;
                            on_resp (SetHeader "x-amz-id-2" x_amz_id_2);;
                            on_resp (SetHeader "x-amz-request-id" x_amz_request_id);;
                            on_resp (SetHeader "ETag" created_etag);;
                            on_resp (SetHeader "Server" "AmazonS3");;
                            on_resp (Write []);;
                            mret None
                        end
                  end
              end
          | _ => mret (Some (CodeError ErrIncorrectNumberOfFilesInPostRequest))
          end
      | _ => mret (Some (CodeError ErrIncorrectNumberOfFilesInPostRequest))
      end
  end.

(** Modelled from the spec: [uploader.Get] (section 4.4, [uploader.go] is
    not among the sources): the upload registered under the id, or
    [NoSuchUpload] when the id is unknown. *)
Definition uploader_Get (bucket object id : string) : M State (result multipartUpload) :=
  fun s =>
    match st_uploads s !! id with
    | Some mu => Done (Ok mu) s
    | None => Done (Err (CodeError ErrNoSuchUpload)) s
    end.

(** Modelled from the spec: [AddPart] (section 4.4).  It validates
    [1 <= partNumber <= 10000] ([InvalidPart] otherwise), stores
    [(bytes, time, hash)] in the parts table of the upload, over any entry at
    the same number, and returns the quoted hex MD5 of the bytes. *)
Definition AddPart (mu : multipartUpload) (partNumber : Z) (at_ : Time)
    (body : list Byte.byte) : M State (result string) :=
  fun s =>
    if (partNumber <? 1) || (partNumber >? MaxUploadPartNumber) then
      Done (Err (CodeError ErrInvalidPart)) s
    else
      let etag := quoted (Hex.EncodeToString (md5_Sum env body)) in
      let part := {| PartETag := etag; PartLastModified := at_; PartBody := body |} in
      let add (u : multipartUpload) :=
        {| ID := ID u; UpBucket := UpBucket u; UpObject := UpObject u;
           Meta := Meta u; Initiated := Initiated u;
           parts := <[partNumber := part]> (parts u) |} in
      Done (Ok etag)
           {| st_backend := st_backend s;
              st_uploads := alter add (ID mu) (st_uploads s);
              st_ticks := st_ticks s; st_resp := st_resp s;
              st_calls := st_calls s |}.

(** The first check of [putMultipartUploadPart]: the [partNumber] query
    value, as an [int] in 1..10000, or [ErrInvalidPart]. *)
Definition partNumberOf (r : Request) : result Z :=
  let '(partNumber, err) := ParseInt (Values_Get (Query r) "partNumber") IntSize in
  if bool_decide (err ≠ None) || (partNumber <=? 0) || (partNumber >? MaxUploadPartNumber)
  then Err (CodeError ErrInvalidPart)
  else Ok partNumber.

(** [g.putMultipartUploadPart(bucket, object, uploadID, w, r)] *)
Definition putMultipartUploadPart (g : GoFakeS3) (bucket object uploadID : string)
    (r : Request) : M State (option error) :=
  match partNumberOf r with
  | Err e => mret (Some e)
  | Ok partNumber =>
      let '(size, err) := ParseInt (Header_Get (ReqHeader r) "Content-Length") 64 in
      if bool_decide (err ≠ None) || (size <=? 0) then
        mret (Some (CodeError ErrMissingContentLength))
      else
        got ← uploader_Get bucket object uploadID;
        match got with
        | Err e => mret (Some e)
        | Ok upload =>
            match bodyReader g r with
            | Err e => mret (Some e)
            | Ok rdr =>
                match ReadAll env rdr size with
                | Err e => mret (Some e)
                | Ok body =>
                    if negb (Z.of_nat (length body) =? ContentLength r) then
                      mret (Some (CodeError ErrIncompleteBody))
                    else
                      at_ ← Now g;
                      added ← AddPart upload partNumber at_ body;
                      match added with
                      | Err e => mret (Some e)
                      | Ok etag => on_resp (AddHeader "ETag" etag);; mret None
                      end
                end
            end
        end
  end.

End Handlers.

Arguments FileHeader : clear implicits.
Arguments Form : clear implicits.
Arguments Request : clear implicits.
Arguments Backend : clear implicits.
Arguments Env : clear implicits.
Arguments State : clear implicits.

End GoFakeS3.

(** ** The specification's words, as definitions *)

Module Spec.

Import GoInt GoStrings Strconv S3Error RangeGo GoTime NetHttp.

(** The value of a string of decimal digits, [None] when a byte is not a
    digit. *)
Fixpoint digits_value (s : string) (acc : Z) : option Z :=
  match s with
  | EmptyString => Some acc
  | String c s' =>
      if is_digit c then digits_value s' (acc * 10 + (Z.of_nat (nat_of_ascii c) - 48))
      else None
  end.

(** The integer a string denotes in decimal: an optional sign and at least
    one digit.  No bound on the value. *)
Definition decimal_value (s : string) : option Z :=
  match s with
  | EmptyString => None
  | String c rest =>
      let neg := Ascii.eqb c "-"%char in
      let digits := if Ascii.eqb c "+"%char || neg then rest else s in
      match digits with
      | EmptyString => None
      | _ => v ← digits_value digits 0; Some (if neg then - v else v)
      end
  end.

(** A bound parses when it denotes an integer that fits [int64]. *)
Definition parsed_bound (s : string) : option Z :=
  v ← decimal_value s;
  if (min_int64 <=? v) && (v <=? max_int64) then Some v else None.

Fixpoint contains_byte (c : ascii) (s : string) : bool :=
  match s with
  | EmptyString => false
  | String a s' => Ascii.eqb a c || contains_byte c s'
  end.

(** The text before and after the first dash of a range; a text without a
    dash has no bounds. *)
Fixpoint bounds (r : string) : option (string * string) :=
  match r with
  | EmptyString => None
  | String c r' =>
      if Ascii.eqb c "-"%char then Some (EmptyString, r')
      else '(st, en) ← bounds r'; Some (String c st, en)
  end.

(** The unit of a Range header is ["bytes="]. *)
Definition unit_is_bytes (s : string) : bool := HasPrefix s "bytes=".

(** What follows the unit. *)
Definition range_set (s : string) : string := slice_from 6 s.

(** More than one comma-separated range. *)
Definition multiple_ranges (s : string) : bool := contains_byte ","%char (range_set s).

(** The start is negative or unparseable: the range has no readable bounds,
    or it has a start text that is no [int64] or is below zero. *)
Definition start_negative_or_unparseable (s : string) : bool :=
  match bounds (TrimSpace (range_set s)) with
  | None => true
  | Some (st, _) =>
      let st := TrimSpace st in
      negb (String.eqb st "") &&
      match parsed_bound st with
      | None => true
      | Some a => a <? 0
      end
  end.

(** The explicit start exceeds the explicit end. *)
Definition start_exceeds_end (s : string) : bool :=
  match bounds (TrimSpace (range_set s)) with
  | None => false
  | Some (st, en) =>
      match parsed_bound (TrimSpace st), parsed_bound (TrimSpace en) with
      | Some a, Some b => negb (String.eqb (TrimSpace st) "") && (a >? b)
      | _, _ => false
      end
  end.

(** An end bound (after a start) or a suffix bound (without a start) is
    unparseable.  An empty end after a start is no bound: the range is
    open-ended. *)
Definition end_or_suffix_unparseable (s : string) : bool :=
  match bounds (TrimSpace (range_set s)) with
  | None => false
  | Some (st, en) =>
      let st := TrimSpace st in
      let en := TrimSpace en in
      if String.eqb st "" then bool_decide (parsed_bound en = None)
      else negb (String.eqb en "") && bool_decide (parsed_bound en = None)
  end.

(** The five conditions under which a Range header is invalid. *)
Definition invalid_range_header (s : string) : bool :=
  negb (unit_is_bytes s)
  || multiple_ranges s
  || start_negative_or_unparseable s
  || start_exceeds_end s
  || end_or_suffix_unparseable s.

Definition ascii_lower (c : ascii) : ascii :=
  if is_upper_alpha c then ascii_of_nat (nat_of_ascii c + 32) else c.

(** [prefix] begins [s], letters compared without case. *)
Fixpoint HasPrefixFold (s prefix : string) : bool :=
  match prefix, s with
  | EmptyString, _ => true
  | String _ _, EmptyString => false
  | String p prefix', String c s' =>
      Ascii.eqb (ascii_lower p) (ascii_lower c) && HasPrefixFold s' prefix'
  end.

(** The aggregate byte length of a metadata map: the sum over its entries
    of [len(k) + len(v)], as a mathematical integer. *)
Definition metadataBytes (meta : gmap string string) : Z :=
  map_fold (fun k v total => total + (len k + len v)) 0 meta.

End Spec.

(** ** A concrete setting for examples

    The theorems below hold for every backend, clock and library function.
    The examples need one of each: an in-memory backend, and stand-ins for
    the library functions on the inputs the examples use. *)

Module Fixture.

Import GoInt GoStrings Strconv S3Error RangeGo GoTime NetHttp GoFakeS3.

(** Days from January 1 of year 1 to the given day of the proleptic
    Gregorian calendar. *)
Definition days_before (y m d : Z) : Z :=
  let y := if m <=? 2 then y - 1 else y in
  let era := y / 400 in
  let yoe := y - era * 400 in
  let mp := if m >? 2 then m - 3 else m + 9 in
  let doy := (153 * mp + 2) / 5 + d - 1 in
  let doe := yoe * 365 + yoe / 4 - yoe / 100 + doy in
  era * 146097 + doe - 306.

(** The year, month and day of a day count. *)
Definition civil (days : Z) : Z * Z * Z :=
  let z := days + 306 in
  let era := z / 146097 in
  let doe := z - era * 146097 in
  let yoe := (doe - doe / 1460 + doe / 36524 - doe / 146096) / 365 in
  let doy := doe - (365 * yoe + yoe / 4 - yoe / 100) in
  let mp := (5 * doy + 2) / 153 in
  let d := doy - (153 * mp + 2) / 5 + 1 in
  let m := if mp <? 10 then mp + 3 else mp - 9 in
  let y := yoe + era * 400 + (if m <=? 2 then 1 else 0) in
  (y, m, d).

Definition days_in (y m : Z) : Z :=
  if m =? 2 then
    if ((y mod 4 =? 0) && negb (y mod 100 =? 0)) || (y mod 400 =? 0) then 29 else 28
  else if (m =? 4) || (m =? 6) || (m =? 9) || (m =? 11) then 30
  else 31.

(** The strict form [YYYYMMDDTHHMMSSZ] of the layout [20060102T150405Z]:
    sixteen bytes, every field in range.  [time.Parse] accepts this form. *)
Definition parse_amz_date (s : string) : option Time :=
  if negb (String.length s =? 16)%nat then None
  else
    y ← Spec.digits_value (substring 0 4 s) 0;
    mo ← Spec.digits_value (substring 4 2 s) 0;
    d ← Spec.digits_value (substring 6 2 s) 0;
    h ← Spec.digits_value (substring 9 2 s) 0;
    mi ← Spec.digits_value (substring 11 2 s) 0;
    se ← Spec.digits_value (substring 13 2 s) 0;
    if String.eqb (substring 8 1 s) "T" && String.eqb (substring 15 1 s) "Z"
       && (1 <=? mo) && (mo <=? 12) && (1 <=? d) && (d <=? days_in y mo)
       && (h <? 24) && (mi <? 60) && (se <? 60)
    then Some ((((days_before y mo d * 24 + h) * 60 + mi) * 60 + se) * Second)
    else None.

Definition two_digits (n : Z) : string :=
  (if n <? 10 then "0" else "") ++ itoa n.

Definition four_digits (n : Z) : string :=
  (if n <? 10 then "000" else if n <? 100 then "00" else if n <? 1000 then "0" else "")
  ++ itoa n.

(** [Mon, 02 Jan 2006 15:04:05] of an instant, in UTC. *)
Definition format_rfc1123_utc (t : Time) : string :=
  let secs := t / Second in
  let days := secs / 86400 in
  let sod := secs mod 86400 in
  let '(y, m, d) := civil days in
  nth (Z.to_nat (days mod 7)) ["Mon"; "Tue"; "Wed"; "Thu"; "Fri"; "Sat"; "Sun"] ""
  ++ ", " ++ two_digits d ++ " "
  ++ nth (Z.to_nat (m - 1))
       ["Jan"; "Feb"; "Mar"; "Apr"; "May"; "Jun"; "Jul"; "Aug"; "Sep"; "Oct"; "Nov"; "Dec"] ""
  ++ " " ++ four_digits y ++ " "
  ++ two_digits (sod / 3600) ++ ":" ++ two_digits (sod mod 3600 / 60) ++ ":"
  ++ two_digits (sod mod 60).

(** Request bodies are read from memory. *)
Definition Reader : Type := list Byte.byte.

(** The MD5 digest of [hello]; the stand-in for [md5.Sum] is right on that
    input and gives sixteen zero bytes elsewhere. *)
Definition md5_hello : list Byte.byte :=
  [Byte.x5d; Byte.x41; Byte.x40; Byte.x2a; Byte.xbc; Byte.x4b; Byte.x2a; Byte.x76;
   Byte.xb9; Byte.x71; Byte.x9d; Byte.x91; Byte.x10; Byte.x17; Byte.xc5; Byte.x92].

Definition hello : list Byte.byte := bytes_of_string "hello".

Definition md5_stand_in (data : list Byte.byte) : list Byte.byte :=
  if bool_decide (map Byte.to_N data = map Byte.to_N hello) then md5_hello
  else replicate 16 Byte.x00.

Definition env : Env Reader := {|
  time_Parse := parse_amz_date;
  time_Format := format_rfc1123_utc;
  md5_Sum := md5_stand_in;
  xml_Encode := fun e => bytes_of_string "<Error></Error>";
  newHashingReader := fun r md5Base64 =>
    if (String.length md5Base64 =? 24)%nat then Ok r
    else Err (CodeError ErrInvalidDigest);
  ReadAll := fun r size =>
    if Z.of_nat (length r) =? size then Ok r else Err (CodeError ErrIncompleteBody)
|}.

(** An in-memory backend: objects by bucket and key. *)
Definition Store : Type := gmap (string * string) Object.

Definition serve (rnge : option ObjectRangeRequest) (obj : Object) : Object :=
  match Range rnge (Size obj) with
  | Some r =>
      {| Name := Name obj; Metadata := Metadata obj; Size := Size obj;
         Contents := {| rc_bytes := take (Z.to_nat (Length r))
                                      (drop (Z.to_nat (Start r)) (rc_bytes (Contents obj)));
                        rc_error := None |};
         Hash := Hash obj; ObjRange := Some r |}
  | None => obj
  end.

#[global] Instance storage : Backend Reader Store := {|
  HeadObject := fun bucket key b =>
    match b !! (bucket, key) with
    | Some obj => (Ok (Some (serve None obj)), b)
    | None => (Err (ResourceError ErrNoSuchKey key), b)
    end;
  GetObject := fun bucket key rnge b =>
    match b !! (bucket, key) with
    | Some obj => (Ok (Some (serve rnge obj)), b)
    | None => (Err (ResourceError ErrNoSuchKey key), b)
    end;
  PutObject := fun bucket key meta rdr size b =>
    (None, <[(bucket, key) :=
               {| Name := key; Metadata := meta; Size := size;
                  Contents := {| rc_bytes := rdr; rc_error := None |};
                  Hash := md5_stand_in rdr; ObjRange := None |}]> b)
|}.

(** Noon of July 1, 2018, and a clock that stands there. *)
Definition noon : Time := ((days_before 2018 7 1 * 24 + 12) * 3600) * Second.

Definition s3 : GoFakeS3 := {|
  timeSource := fun _ => noon;
  timeSkew := DefaultSkewLimit;
  metadataSizeLimit := DefaultMetadataSizeLimit;
  integrityCheck := true;
  hostBucket := false
|}.

Definition start : State Store := {|
  st_backend := ∅; st_uploads := ∅; st_ticks := 0;
  st_resp := newResponseWriter; st_calls := []
|}.

Definition request (method : string) (query header : gmap string (list string))
    (contentLength : Z) (body : Reader) : Request Reader := {|
  Method := method; Host := "localhost"; URLPath := "/bucket/object";
  Query := query; ReqHeader := header; ContentLength := contentLength;
  Body := body; MultipartForm := None
|}.

(** An inner handler that answers [ok]. *)
Definition inner (rq : Request Reader) : M (State Store) unit :=
  on_resp (Write (bytes_of_string "ok")).

Fixpoint repeat_byte (n : nat) (c : ascii) : string :=
  match n with
  | O => EmptyString
  | S n' => String c (repeat_byte n' c)
  end.

(** A stored object whose metadata carries the time it was put. *)
Definition stored_hello : Object := {|
  Name := "object";
  Metadata := {[ "Last-Modified" := "Mon, 01 Jan 2001 00:00:00 GMT" ]};
  Size := 5;
  Contents := {| rc_bytes := hello; rc_error := None |};
  Hash := md5_hello;
  ObjRange := None
|}.

Definition with_object : State Store := {|
  st_backend := {[ ("bucket", "object") := stored_hello ]};
  st_uploads := ∅; st_ticks := 0;
  st_resp := newResponseWriter; st_calls := []
|}.

(** An upload in progress, without parts. *)
Definition upload_1 : multipartUpload := {|
  ID := "upload-1"; UpBucket := "bucket"; UpObject := "object";
  Meta := ∅; Initiated := noon; parts := ∅
|}.

Definition with_upload : State Store := {|
  st_backend := ∅;
  st_uploads := {[ "upload-1" := upload_1 ]}; st_ticks := 0;
  st_resp := newResponseWriter; st_calls := []
|}.

End Fixture.


(** * Properties *)

Import GoInt GoStrings Strconv S3Error RangeGo GoTime NetHttp GoFakeS3.

(** ** Machine integers *)

Lemma wrap64_id (x : Z) : in_int64 x -> wrap64 x = x.
Proof.
  unfold in_int64, min_int64, max_int64, wrap64. intros Hx.
  rewrite Z.mod_small; lia.
Qed.

Lemma wrap64_add_l (a b : Z) : wrap64 (wrap64 a + b) = wrap64 (a + b).
Proof.
  unfold wrap64. f_equal.
  replace ((a + 2 ^ 63) mod 2 ^ 64 - 2 ^ 63 + b + 2 ^ 63)
    with ((a + 2 ^ 63) mod 2 ^ 64 + b) by lia.
  rewrite Zplus_mod_idemp_l. f_equal. lia.
Qed.

Lemma sub64_id (x y : Z) : in_int64 (x - y) -> sub64 x y = x - y.
Proof. apply wrap64_id. Qed.

Lemma add64_id (x y : Z) : in_int64 (x + y) -> add64 x y = x + y.
Proof. apply wrap64_id. Qed.

(** ** Resolving a range against a size *)

(** A suffix request whose end stays below the size, negative ends
    included, as long as [size - n] fits [int64]. *)
Lemma Range_suffix_within (size n anyStart : Z) :
  in_int64 size -> in_int64 n -> n <= size -> in_int64 (size - n) ->
  Range (Some {| rqStart := anyStart; rqEnd := n; FromEnd := true |}) size
  = Some {| Start := size - n; Length := n |}.
Proof.
  intros Hs Hn Hle Hfit. unfold Range. simpl.
  destruct (Z.gtb_spec n size) as [Hgt | _]; [lia |].
  rewrite (sub64_id size n) by assumption.
  rewrite sub64_id; [do 2 f_equal; lia |].
  replace (size - (size - n)) with n by lia. assumption.
Qed.

(** A suffix request for more than the object holds gives all of it. *)
Lemma Range_suffix_beyond (size n anyStart : Z) :
  0 <= size <= max_int64 -> n > size ->
  Range (Some {| rqStart := anyStart; rqEnd := n; FromEnd := true |}) size
  = Some {| Start := 0; Length := size |}.
Proof.
  intros Hs Hgt. unfold Range. simpl.
  destruct (Z.gtb_spec n size) as [_ | Hle]; [| lia].
  assert (Hz : sub64 size size = 0).
  { rewrite sub64_id; [lia |]. unfold in_int64, min_int64, max_int64. lia. }
  rewrite Hz. rewrite sub64_id; [do 2 f_equal; lia |].
  unfold in_int64, min_int64, max_int64 in *. lia.
Qed.

(** C3: for an object of size [S >= 0] and a suffix request [bytes=-N], the
    resolved range is the whole object ([start = 0], [length = S]) when
    [N > S], and [start = S - N], [length = N] when [N <= S]. *)
Theorem Range_suffix (S N anyStart : Z) :
  0 <= S <= max_int64 -> 0 <= N <= max_int64 ->
  let o := Some {| rqStart := anyStart; rqEnd := N; FromEnd := true |} in
  (N > S -> Range o S = Some {| Start := 0; Length := S |}) /\
  (N <= S -> Range o S = Some {| Start := S - N; Length := N |}).
Proof.
  intros HS HN o. subst o. split; intros Hcmp.
  - apply Range_suffix_beyond; assumption.
  - apply Range_suffix_within; unfold in_int64, min_int64, max_int64 in *; lia.
Qed.

(** Scenario 2 of the specification: [bytes=-1025] on 1024 bytes is the
    whole object. *)
Example Range_suffix_overshoot :
  parseRangeHeader "bytes=-1025"
  = Ok (Some {| rqStart := 0; rqEnd := 1025; FromEnd := true |})
  /\ Range (Some {| rqStart := 0; rqEnd := 1025; FromEnd := true |}) 1024
     = Some {| Start := 0; Length := 1024 |}.
Proof. split; vm_compute; reflexivity. Qed.

Lemma Range_suffix_witness :
  Range (Some {| rqStart := 0; rqEnd := 1025; FromEnd := true |}) 1024
  = Some {| Start := 0; Length := 1024 |}.
Proof.
  apply (Range_suffix 1024 1025 0); unfold max_int64; lia.
Defined.

(** ** [strconv.ParseInt] reads decimal integers *)

Lemma is_digit_value (c : ascii) :
  is_digit c = true -> 0 <= Z.of_nat (nat_of_ascii c) - 48 <= 9.
Proof.
  unfold is_digit. intros H. apply andb_true_iff in H as [H1 H2].
  apply Nat.leb_le in H1, H2. lia.
Qed.

Lemma digits_value_ge (s : string) : forall acc v,
  0 <= acc -> Spec.digits_value s acc = Some v -> acc <= v.
Proof.
  induction s as [| c s IH]; intros acc v Hacc Hv; simpl in Hv.
  - injection Hv as <-. lia.
  - destruct (is_digit c) eqn:Hc; [| discriminate].
    apply is_digit_value in Hc. apply IH in Hv; lia.
Qed.

(** The digit loop returns the value of the digits when it fits [uint64],
    a range error with the largest [uint64] when it does not, and an error
    in any case when some byte is not a digit. *)
Lemma ParseUint_loop_spec (s : string) : forall n,
  0 <= n <= max_uint64 ->
  match Spec.digits_value s n with
  | Some v =>
      if v <=? max_uint64 then ParseUint_loop s 64 n = (v, None)
      else ParseUint_loop s 64 n = (max_uint64, Some ErrRange)
  | None =>
      ParseUint_loop s 64 n = (0, Some ErrSyntax)
      \/ ParseUint_loop s 64 n = (max_uint64, Some ErrRange)
  end.
Proof.
  induction s as [| c s IH]; intros n Hn; simpl.
  - destruct (Z.leb_spec n max_uint64); [reflexivity | lia].
  - destruct (is_digit c) eqn:Hc; [| left; reflexivity].
    pose proof (is_digit_value c Hc) as Hd.
    set (d := Z.of_nat (nat_of_ascii c) - 48) in *.
    change (2 ^ 64 - 1) with max_uint64.
    change (max_uint64 / 10 + 1) with 1844674407370955162.
    assert (Hmax : max_uint64 = 18446744073709551615) by reflexivity.
    destruct (Z.geb_spec n 1844674407370955162) as [Hcut | Hcut].
    + (* n * 10 already exceeds the largest uint64 *)
      assert (Hbig : max_uint64 < n * 10 + d) by lia.
      destruct (Spec.digits_value s (n * 10 + d)) as [v |] eqn:Hv; [| right; reflexivity].
      apply digits_value_ge in Hv; [| lia].
      destruct (Z.leb_spec v max_uint64); [lia | reflexivity].
    + destruct (Z.gtb_spec (n * 10 + d) max_uint64) as [Hover | Hfit]; simpl.
      * destruct (Spec.digits_value s (n * 10 + d)) as [v |] eqn:Hv; [| right; reflexivity].
        apply digits_value_ge in Hv; [| lia].
        destruct (Z.leb_spec v max_uint64); [lia | reflexivity].
      * apply IH. lia.
Qed.

(** [ParseInt(s, 10, 64)] succeeds exactly on the decimal numerals of
    [int64], with their value. *)
Lemma ParseInt_spec (s : string) :
  match Spec.parsed_bound s with
  | Some n => ParseInt s 64 = (n, None)
  | None => exists x e, ParseInt s 64 = (x, Some e)
  end.
Proof.
  unfold Spec.parsed_bound, Spec.decimal_value, ParseInt.
  destruct s as [| c0 rest]; [simpl; eauto |].
  cbv zeta.
  generalize (if Ascii.eqb c0 "+"%char || Ascii.eqb c0 "-"%char
              then rest else String c0 rest).
  generalize (Ascii.eqb c0 "-"%char).
  intros neg ds. clear c0 rest.
  destruct ds as [| c1 r1]; [simpl; eauto |].
  change (ParseUint (String c1 r1) 64) with (ParseUint_loop (String c1 r1) 64 0).
  cbv iota.
  pose proof (ParseUint_loop_spec (String c1 r1) 0) as Hloop.
  assert (H0 : 0 <= 0 <= max_uint64) by (unfold max_uint64; lia).
  specialize (Hloop H0). clear H0.
  assert (Hge : forall v, Spec.digits_value (String c1 r1) 0 = Some v -> 0 <= v)
    by (intros v Hv; apply digits_value_ge in Hv; lia).
  revert Hloop Hge.
  generalize (ParseUint_loop (String c1 r1) 64 0).
  generalize (Spec.digits_value (String c1 r1) 0).
  intros dv pu Hloop Hge. clear c1 r1.
  destruct dv as [v |]; simpl.
  - assert (Hv0 : 0 <= v) by (apply Hge; reflexivity).
    change (2 ^ (64 - 1)) with (2 ^ 63).
    destruct (Z.leb_spec v max_uint64) as [Hfit | Hover]; rewrite Hloop.
    + destruct neg; simpl.
      * destruct (Z.gtb_spec v (2 ^ 63)) as [Hbig | Hsmall].
        -- destruct (Z.leb_spec min_int64 (- v)); simpl; [| eauto].
           unfold min_int64 in *. lia.
        -- destruct (Z.leb_spec min_int64 (- v)); simpl;
             [| unfold min_int64 in *; lia].
           destruct (Z.leb_spec (- v) max_int64); [reflexivity |].
           unfold max_int64 in *. lia.
      * destruct (Z.geb_spec v (2 ^ 63)) as [Hbig | Hsmall].
        -- destruct (Z.leb_spec min_int64 v); simpl; [| eauto].
           destruct (Z.leb_spec v max_int64); [| eauto].
           unfold max_int64 in *. lia.
        -- destruct (Z.leb_spec min_int64 v); simpl;
             [| unfold min_int64 in *; lia].
           destruct (Z.leb_spec v max_int64); [reflexivity |].
           unfold max_int64 in *. lia.
    + assert (Hout : (if (min_int64 <=? (if neg then - v else v))
                         && ((if neg then - v else v) <=? max_int64)
                      then Some (if neg then - v else v) else None) = None).
      { destruct neg.
        - destruct (Z.leb_spec min_int64 (- v)); simpl; [| reflexivity].
          unfold min_int64, max_uint64 in *. lia.
        - destruct (Z.leb_spec v max_int64); [| rewrite andb_false_r; reflexivity].
          unfold max_int64, max_uint64 in *. lia. }
      rewrite Hout.
      destruct neg; simpl; eauto.
  - destruct Hloop as [-> | ->]; [eauto |].
    destruct neg; simpl; eauto.
Qed.

Lemma ParseInt_ok (s : string) (n : Z) :
  ParseInt s 64 = (n, None) <-> Spec.parsed_bound s = Some n.
Proof.
  pose proof (ParseInt_spec s) as H.
  destruct (Spec.parsed_bound s) as [m |].
  - rewrite H. split; intros E; congruence.
  - destruct H as (x & e & ->). split; intros E; congruence.
Qed.

Lemma ParseInt_err (s : string) :
  (ParseInt s 64).2 <> None <-> Spec.parsed_bound s = None.
Proof.
  pose proof (ParseInt_spec s) as H.
  destruct (Spec.parsed_bound s) as [m |].
  - rewrite H. simpl. split; intros E; congruence.
  - destruct H as (x & e & ->). simpl. split; intros E; congruence.
Qed.

(** ** Parsing a Range header *)

Lemma Split_contains (sep : ascii) (s : string) :
  if Spec.contains_byte sep s then (1 < length (Split s sep))%nat
  else Split s sep = [s].
Proof.
  induction s as [| c s IH]; simpl; [reflexivity |].
  destruct (Ascii.eqb c sep); simpl.
  - destruct (Split s sep); [destruct (Spec.contains_byte sep s); simpl in *; [lia | discriminate] |].
    simpl. lia.
  - destruct (Spec.contains_byte sep s).
    + destruct (Split s sep) as [| h t]; simpl in *; lia.
    + rewrite IH. reflexivity.
Qed.

Lemma HasPrefix_empty (s : string) : HasPrefix s "" = true.
Proof. destruct s; reflexivity. Qed.

Lemma Index_dash_cons (c : ascii) (r : string) :
  Index (String c r) "-" =
  if Ascii.eqb "-"%char c then 0
  else if Index r "-" <? 0 then -1 else Index r "-" + 1.
Proof.
  cbn [Index HasPrefix]. rewrite HasPrefix_empty.
  destruct (Ascii.eqb "-"%char c); reflexivity.
Qed.

(** [strings.Index(r, "-")] with the two slices around it is the split of
    [Spec.bounds]. *)
Lemma Index_bounds (r : string) :
  match Spec.bounds r with
  | None => Index r "-" = -1
  | Some (st, en) =>
      0 <= Index r "-"
      /\ slice_to (Z.to_nat (Index r "-")) r = st
      /\ slice_from (Z.to_nat (Index r "-" + 1)) r = en
  end.
Proof.
  induction r as [| c r IH]; [reflexivity |].
  rewrite Index_dash_cons. cbn [Spec.bounds].
  rewrite (Ascii.eqb_sym "-"%char c).
  destruct (Ascii.eqb c "-"%char).
  - simpl. repeat split. lia.
  - destruct (Spec.bounds r) as [[st en] |]; simpl.
    + destruct IH as (Hi & Hst & Hen).
      destruct (Z.ltb_spec (Index r "-") 0) as [Hlt | _]; [lia |].
      split; [lia |].
      replace (Z.to_nat (Index r "-" + 1 + 1)) with (S (Z.to_nat (Index r "-" + 1))) by lia.
      replace (Z.to_nat (Index r "-" + 1)) with (S (Z.to_nat (Index r "-"))) in * by lia.
      simpl. rewrite Hst. simpl in Hen. rewrite Hen. auto.
    + rewrite IH. reflexivity.
Qed.

Lemma len_zero (s : string) : (len s =? 0) = String.eqb s "".
Proof. destruct s; reflexivity. Qed.

(** The parser on a header with the right unit and a single range, in
    terms of the bounds of that range. *)
Lemma parseRangeHeader_single (s : string) :
  s <> "" -> Spec.unit_is_bytes s = true -> Spec.multiple_ranges s = false ->
  parseRangeHeader s =
  match Spec.bounds (TrimSpace (Spec.range_set s)) with
  | None => Err (CodeError ErrInvalidRange)
  | Some (st, en) =>
      if String.eqb (TrimSpace st) "" then
        match Spec.parsed_bound (TrimSpace en) with
        | None => Err (CodeError ErrInvalidRange)
        | Some n => Ok (Some {| rqStart := 0; rqEnd := n; FromEnd := true |})
        end
      else
        match Spec.parsed_bound (TrimSpace st) with
        | None => Err (CodeError ErrInvalidRange)
        | Some a =>
            if a <? 0 then Err (CodeError ErrInvalidRange)
            else if String.eqb (TrimSpace en) "" then
              Ok (Some {| rqStart := a; rqEnd := RangeNoEnd; FromEnd := false |})
            else
              match Spec.parsed_bound (TrimSpace en) with
              | None => Err (CodeError ErrInvalidRange)
              | Some b =>
                  if a >? b then Err (CodeError ErrInvalidRange)
                  else Ok (Some {| rqStart := a; rqEnd := b; FromEnd := false |})
              end
        end
  end.
Proof.
  intros Hne Hunit Hmulti. unfold parseRangeHeader.
  destruct (String.eqb_spec s "") as [-> | _]; [congruence |].
  unfold Spec.unit_is_bytes in Hunit. rewrite Hunit. cbn [negb].
  unfold Spec.multiple_ranges, Spec.range_set in *.
  change (String.length "bytes=") with 6%nat.
  pose proof (Split_contains ","%char (slice_from 6 s)) as Hsplit.
  rewrite Hmulti in Hsplit. rewrite Hsplit. cbn [length Nat.ltb Nat.leb nth].
  set (rnge := TrimSpace (slice_from 6 s)).
  rewrite len_zero.
  pose proof (Index_bounds rnge) as Hidx.
  destruct (String.eqb_spec rnge "") as [Hempty | _].
  { rewrite Hempty. reflexivity. }
  destruct (Spec.bounds rnge) as [[st en] |].
  - destruct Hidx as (Hi & -> & ->).
    destruct (Z.ltb_spec (Index rnge "-") 0) as [Hlt | _]; [lia |].
    set (start := TrimSpace st).
    set (end_ := TrimSpace en).
    pose proof (ParseInt_spec start) as Hstart.
    pose proof (ParseInt_spec end_) as Hend.
    destruct (String.eqb start "").
    + destruct (Spec.parsed_bound end_) as [n |].
      * rewrite Hend. reflexivity.
      * destruct Hend as (x & e & ->). reflexivity.
    + destruct (Spec.parsed_bound start) as [a |].
      * rewrite Hstart. cbn [bool_decide orb].
        rewrite bool_decide_eq_false_2 by (intros H; apply H; reflexivity).
        cbn [orb]. destruct (a <? 0); [reflexivity |].
        destruct (String.eqb end_ ""); cbn [negb]; [reflexivity |].
        destruct (Spec.parsed_bound end_) as [b |].
        -- rewrite Hend.
           rewrite bool_decide_eq_false_2 by (intros H; apply H; reflexivity).
           cbn [orb]. destruct (a >? b); reflexivity.
        -- destruct Hend as (x & e & ->).
           rewrite bool_decide_eq_true_2 by discriminate. reflexivity.
      * destruct Hstart as (x & e & ->).
        rewrite bool_decide_eq_true_2 by discriminate. reflexivity.
  - rewrite Hidx. reflexivity.
Qed.

Lemma parseRangeHeader_cases (s : string) :
  s <> "" ->
  if Spec.invalid_range_header s
  then exists e, parseRangeHeader s = Err e /\ error_code e = ErrInvalidRange
  else exists o, parseRangeHeader s = Ok (Some o).
Proof.
  intros Hne. unfold Spec.invalid_range_header.
  destruct (Spec.unit_is_bytes s) eqn:Hunit; cbn [negb orb].
  2: { unfold parseRangeHeader.
       destruct (String.eqb_spec s "") as [-> | _]; [congruence |].
       unfold Spec.unit_is_bytes in Hunit. rewrite Hunit. cbn [negb].
       eexists; split; reflexivity. }
  destruct (Spec.multiple_ranges s) eqn:Hmulti; cbn [orb].
  { unfold parseRangeHeader.
    destruct (String.eqb_spec s "") as [-> | _]; [congruence |].
    unfold Spec.unit_is_bytes in Hunit. rewrite Hunit. cbn [negb].
    pose proof (Split_contains ","%char (slice_from 6 s)) as Hsplit.
    unfold Spec.multiple_ranges, Spec.range_set in Hmulti. rewrite Hmulti in Hsplit.
    change (String.length "bytes=") with 6%nat.
    apply Nat.ltb_lt in Hsplit. rewrite Hsplit.
    eexists; split; reflexivity. }
  rewrite (parseRangeHeader_single s Hne Hunit Hmulti).
  unfold Spec.start_negative_or_unparseable, Spec.start_exceeds_end,
    Spec.end_or_suffix_unparseable.
  destruct (Spec.bounds (TrimSpace (Spec.range_set s))) as [[st en] |];
    [| eexists; split; reflexivity].
  destruct (String.eqb_spec (TrimSpace st) "") as [Hst | Hst]; cbn [negb andb orb].
  - (* a suffix range *)
    rewrite Hst. change (Spec.parsed_bound "") with (@None Z).
    destruct (Spec.parsed_bound (TrimSpace en)) as [n |].
    + rewrite bool_decide_eq_false_2 by discriminate. eexists; reflexivity.
    + rewrite bool_decide_eq_true_2 by reflexivity. eexists; split; reflexivity.
  - destruct (Spec.parsed_bound (TrimSpace st)) as [a |]; cbn [orb];
      [| eexists; split; reflexivity].
    destruct (a <? 0); cbn [orb]; [eexists; split; reflexivity |].
    destruct (String.eqb_spec (TrimSpace en) "") as [Hen | Hen]; cbn [negb andb orb].
    + rewrite Hen. change (Spec.parsed_bound "") with (@None Z).
      eexists; reflexivity.
    + destruct (Spec.parsed_bound (TrimSpace en)) as [b |].
      * rewrite bool_decide_eq_false_2 by discriminate.
        destruct (a >? b); cbn [orb]; eexists; try split; reflexivity.
      * rewrite bool_decide_eq_true_2 by reflexivity.
        rewrite orb_true_r. eexists; split; reflexivity.
Qed.

(** C4: on a non-empty Range header, [parseRangeHeader] returns the
    [InvalidRange] error exactly when the unit is not [bytes=], or there is
    more than one comma-separated range, or the start is negative or
    unparseable, or the explicit start exceeds the explicit end, or an end or
    suffix bound is unparseable; otherwise it returns a parsed range request
    and no error. *)
Theorem parseRangeHeader_InvalidRange (s : string) :
  s <> "" ->
  ((exists e, parseRangeHeader s = Err e /\ error_code e = ErrInvalidRange)
   <-> (Spec.unit_is_bytes s = false
        \/ Spec.multiple_ranges s = true
        \/ Spec.start_negative_or_unparseable s = true
        \/ Spec.start_exceeds_end s = true
        \/ Spec.end_or_suffix_unparseable s = true))
  /\ (Spec.invalid_range_header s = false ->
      exists o, parseRangeHeader s = Ok (Some o)).
Proof.
  intros Hne. pose proof (parseRangeHeader_cases s Hne) as Hc.
  assert (Hor : Spec.invalid_range_header s = true <->
                (Spec.unit_is_bytes s = false
                 \/ Spec.multiple_ranges s = true
                 \/ Spec.start_negative_or_unparseable s = true
                 \/ Spec.start_exceeds_end s = true
                 \/ Spec.end_or_suffix_unparseable s = true)).
  { unfold Spec.invalid_range_header.
    rewrite !orb_true_iff, negb_true_iff. tauto. }
  split.
  - rewrite <- Hor.
    destruct (Spec.invalid_range_header s); split; intros H; try assumption;
      try reflexivity; try discriminate.
    destruct Hc as (o & Ho). destruct H as (e & He & _). congruence.
  - intros Hvalid. rewrite Hvalid in Hc. exact Hc.
Qed.

Lemma parseRangeHeader_InvalidRange_witness :
  (exists e, parseRangeHeader "bytes=1-quack" = Err e /\ error_code e = ErrInvalidRange)
  /\ (exists o, parseRangeHeader "bytes=0-1023" = Ok (Some o)).
Proof.
  split.
  - apply (parseRangeHeader_InvalidRange "bytes=1-quack"); [discriminate |].
    right. right. right. right. vm_compute. reflexivity.
  - apply (parseRangeHeader_InvalidRange "bytes=0-1023"); [discriminate |].
    vm_compute. reflexivity.
Defined.

(** ** A suffix range, from the header to the resolved range *)

Lemma is_digit_cases (a : ascii) :
  is_digit a = true ->
  In a ["0"; "1"; "2"; "3"; "4"; "5"; "6"; "7"; "8"; "9"]%char.
Proof.
  destruct a as [[] [] [] [] [] [] [] []]; intros H; try discriminate H;
    simpl; tauto.
Qed.

Ltac digit_cases H :=
  apply is_digit_cases in H; simpl in H;
  repeat (destruct H as [H | H]; [subst |]); [.. | contradiction].

Lemma asciiSpace_digit (a : ascii) : is_digit a = true -> asciiSpace a = false.
Proof. intros H. digit_cases H; reflexivity. Qed.

Lemma space2_digit_l (a b : ascii) : is_digit a = true -> space2 a b = false.
Proof. intros H. digit_cases H; reflexivity. Qed.

Lemma space3_digit_l (a b c : ascii) : is_digit a = true -> space3 a b c = false.
Proof. intros H. digit_cases H; reflexivity. Qed.

Lemma space2_digit_r (a b : ascii) : is_digit a = true -> space2 b a = false.
Proof. intros H. unfold space2. digit_cases H; apply andb_false_r. Qed.

Lemma space3_digit_r (a b c : ascii) : is_digit a = true -> space3 c b a = false.
Proof.
  intros H. unfold space3.
  digit_cases H; cbv zeta; rewrite ?andb_false_r; reflexivity.
Qed.

Lemma TrimLeftSpace_digit (a : ascii) (s : string) :
  is_digit a = true -> TrimLeftSpace (String a s) = String a s.
Proof.
  intros H. cbn [TrimLeftSpace]. rewrite (asciiSpace_digit a H).
  destruct s as [| b s2]; [reflexivity |]. rewrite (space2_digit_l a b H).
  destruct s2 as [| c s3]; [reflexivity |]. rewrite (space3_digit_l a b c H).
  reflexivity.
Qed.

Lemma TrimLeftSpaceRev_digit (a : ascii) (s : string) :
  is_digit a = true -> TrimLeftSpaceRev (String a s) = String a s.
Proof.
  intros H. cbn [TrimLeftSpaceRev]. rewrite (asciiSpace_digit a H).
  destruct s as [| b s2]; [reflexivity |]. rewrite (space2_digit_r a b H).
  destruct s2 as [| c s3]; [reflexivity |]. rewrite (space3_digit_r a b c H).
  reflexivity.
Qed.

Lemma string_rev_involutive (s : string) : string_rev (string_rev s) = s.
Proof.
  unfold string_rev. rewrite list_ascii_of_string_of_list_ascii, rev_involutive.
  apply string_of_list_ascii_of_string.
Qed.

(** Every byte of a numeral is a digit. *)
Lemma digits_value_all (s : string) : forall acc v,
  Spec.digits_value s acc = Some v ->
  Forall (fun c => is_digit c = true) (list_ascii_of_string s).
Proof.
  induction s as [| c s IH]; intros acc v Hv; simpl in *; [constructor |].
  destruct (is_digit c) eqn:Hc; [| discriminate].
  constructor; [exact Hc | eauto].
Qed.

(** A text that ends in a digit has no white space to trim on the right. *)
Lemma TrimRightSpace_digits (s : string) (l : list ascii) (a : ascii) :
  list_ascii_of_string s = (l ++ [a])%list -> is_digit a = true ->
  TrimRightSpace s = s.
Proof.
  intros Hs Ha. unfold TrimRightSpace.
  assert (Hrev : string_rev s = String a (string_of_list_ascii (rev l))).
  { unfold string_rev. rewrite Hs, rev_app_distr. reflexivity. }
  rewrite Hrev, (TrimLeftSpaceRev_digit a _ Ha), <- Hrev.
  apply string_rev_involutive.
Qed.

Lemma digits_last (s : string) (acc v : Z) :
  s <> "" -> Spec.digits_value s acc = Some v ->
  exists l a, list_ascii_of_string s = (l ++ [a])%list /\ is_digit a = true.
Proof.
  intros Hne Hv. apply digits_value_all in Hv.
  destruct (list_ascii_of_string s) as [| c l] eqn:Hs using rev_ind.
  - destruct s; [congruence | discriminate].
  - exists l, c. split; [reflexivity |].
    apply Forall_app in Hv as [_ Hc]. inversion Hc; assumption.
Qed.

(** A numeral is its own trimmed form. *)
Lemma TrimSpace_digits (s : string) (acc v : Z) :
  Spec.digits_value s acc = Some v -> TrimSpace s = s.
Proof.
  intros Hv. destruct s as [| c s]; [reflexivity |].
  assert (Hc : is_digit c = true).
  { simpl in Hv. destruct (is_digit c); [reflexivity | discriminate]. }
  unfold TrimSpace. rewrite (TrimLeftSpace_digit c s Hc).
  destruct (digits_last (String c s) acc v ltac:(discriminate) Hv) as (l & a & Hl & Ha).
  exact (TrimRightSpace_digits _ l a Hl Ha).
Qed.

Lemma digits_no_comma (s : string) (acc v : Z) :
  Spec.digits_value s acc = Some v -> Spec.contains_byte ","%char s = false.
Proof.
  revert acc. induction s as [| c s IH]; intros acc Hv; [reflexivity |].
  simpl in Hv. destruct (is_digit c) eqn:Hc; [| discriminate].
  cbn [Spec.contains_byte]. rewrite (IH _ Hv), orb_false_r.
  digit_cases Hc; reflexivity.
Qed.

(** The header [bytes=-N], with [N] a numeral of [int64], parses to the
    suffix request of length [N]. *)
Lemma parseRangeHeader_suffix (digits : string) (n : Z) :
  digits <> "" -> Spec.digits_value digits 0 = Some n -> n <= max_int64 ->
  parseRangeHeader ("bytes=-" ++ digits)
  = Ok (Some {| rqStart := 0; rqEnd := n; FromEnd := true |}).
Proof.
  intros Hne Hv Hfit.
  assert (Hn0 : 0 <= n) by (apply digits_value_ge in Hv; lia).
  destruct digits as [| d ds]; [congruence |].
  assert (Hd : is_digit d = true).
  { simpl in Hv. destruct (is_digit d); [reflexivity | discriminate]. }
  assert (Htrim : TrimSpace (String "-" (String d ds)) = String "-" (String d ds)).
  { unfold TrimSpace.
    assert (Hleft : TrimLeftSpace (String "-" (String d ds)) = String "-" (String d ds))
      by (destruct ds; reflexivity).
    rewrite Hleft.
    destruct (digits_last (String d ds) 0 n ltac:(discriminate) Hv) as (l & a & Hl & Ha).
    apply (TrimRightSpace_digits _ ("-"%char :: l) a); [| exact Ha].
    cbn [list_ascii_of_string] in *. rewrite Hl. reflexivity. }
  rewrite parseRangeHeader_single.
  - change (Spec.range_set ("bytes=-" ++ String d ds)) with (String "-" (String d ds)).
    rewrite Htrim. cbn [Spec.bounds Ascii.eqb Bool.eqb].
    change (TrimSpace "") with "". cbn [String.eqb].
    rewrite (TrimSpace_digits _ _ _ Hv).
    assert (Hbound : Spec.parsed_bound (String d ds) = Some n).
    { unfold Spec.parsed_bound, Spec.decimal_value.
      assert (Hsign : Ascii.eqb d "+"%char || Ascii.eqb d "-"%char = false)
        by (clear - Hd; digit_cases Hd; reflexivity).
      assert (Hminus : Ascii.eqb d "-"%char = false)
        by (clear - Hd; digit_cases Hd; reflexivity).
      rewrite Hsign, Hminus, Hv. simpl.
      destruct (Z.leb_spec min_int64 n); [| unfold min_int64 in *; lia].
      destruct (Z.leb_spec n max_int64); [reflexivity | lia]. }
    rewrite Hbound. reflexivity.
  - discriminate.
  - reflexivity.
  - change (Spec.multiple_ranges ("bytes=-" ++ String d ds))
      with (Spec.contains_byte ","%char (String d ds)).
    exact (digits_no_comma _ _ _ Hv).
Qed.

(** From the header on: [bytes=-N] against a size [S >= 0] resolves to
    the whole object when [N > S] and to the last [N] bytes otherwise. *)
Lemma Range_suffix_of_header (digits : string) (S N : Z) :
  digits <> "" -> Spec.digits_value digits 0 = Some N -> N <= max_int64 ->
  0 <= S <= max_int64 ->
  exists o,
    parseRangeHeader ("bytes=-" ++ digits) = Ok o
    /\ Range o S = Some (if N >? S then {| Start := 0; Length := S |}
                         else {| Start := S - N; Length := N |}).
Proof.
  intros Hne Hv Hfit HS.
  assert (Hn0 : 0 <= N) by (apply digits_value_ge in Hv; lia).
  eexists. split; [apply (parseRangeHeader_suffix digits N Hne Hv Hfit) |].
  destruct (Z.gtb_spec N S).
  - apply Range_suffix_beyond; [assumption | lia].
  - apply Range_suffix_within; unfold in_int64, min_int64, max_int64 in *; lia.
Qed.

(** ** Metadata extraction *)

Lemma wrap64_add_r (a b : Z) : wrap64 (a + wrap64 b) = wrap64 (a + b).
Proof. rewrite (Z.add_comm a), wrap64_add_l. f_equal. lia. Qed.

Lemma len_nonneg (s : string) : 0 <= len s.
Proof. unfold len. lia. Qed.

Lemma metadataBytes_insert (m : gmap string string) (k v : string) :
  m !! k = None -> map_first_key (<[k := v]> m) k ->
  Spec.metadataBytes (<[k := v]> m) = Spec.metadataBytes m + (len k + len v).
Proof.
  intros Hk Hfirst. unfold Spec.metadataBytes.
  rewrite map_fold_insert_first_key by assumption. reflexivity.
Qed.

Lemma metadataBytes_nonneg (m : gmap string string) : 0 <= Spec.metadataBytes m.
Proof.
  induction m as [| k v m Hk Hfirst IH] using map_first_key_ind.
  - unfold Spec.metadataBytes. rewrite map_fold_empty. lia.
  - rewrite metadataBytes_insert by assumption.
    pose proof (len_nonneg k). pose proof (len_nonneg v). lia.
Qed.

(** The running [int] total is the mathematical sum, wrapped. *)
Lemma metadataSize_wrap (m : gmap string string) :
  metadataSize m = wrap64 (Spec.metadataBytes m).
Proof.
  induction m as [| k v m Hk Hfirst IH] using map_first_key_ind.
  - unfold metadataSize, Spec.metadataBytes. rewrite !map_fold_empty. reflexivity.
  - rewrite metadataBytes_insert by assumption.
    unfold metadataSize in *. rewrite map_fold_insert_first_key by assumption.
    rewrite IH. unfold add64.
    rewrite wrap64_add_l, wrap64_add_r. reflexivity.
Qed.

Lemma metadataSize_exact (m : gmap string string) :
  Spec.metadataBytes m <= max_int64 -> metadataSize m = Spec.metadataBytes m.
Proof.
  intros Hfit. rewrite metadataSize_wrap. apply wrap64_id.
  pose proof (metadataBytes_nonneg m). unfold in_int64, min_int64. lia.
Qed.

(** What the loop of [metadataHeaders] leaves in the map: under each key
    that starts with [X-Amz-], byte for byte, the first value of that key;
    nothing under any other key.  It panics exactly when such a key has an
    empty list of values. *)
Lemma metadataHeaders_loop_spec (headers : gmap string (list string)) :
  match metadataHeaders_loop headers with
  | Some meta =>
      forall k, meta !! k =
                if HasPrefix k "X-Amz-" then headers !! k ≫= head else None
  | None => exists k, HasPrefix k "X-Amz-" = true /\ headers !! k = Some []
  end.
Proof.
  induction headers as [| hk hv m Hk Hfirst IH] using map_first_key_ind.
  - unfold metadataHeaders_loop. rewrite map_fold_empty.
    intros k. rewrite !lookup_empty. destruct (HasPrefix k "X-Amz-"); reflexivity.
  - unfold metadataHeaders_loop in *.
    rewrite map_fold_insert_first_key by assumption.
    destruct (map_fold _ (Some ∅) m) as [meta |]; simpl.
    + destruct (HasPrefix hk "X-Amz-") eqn:Hp.
      * destruct hv as [| v vs].
        -- exists hk. split; [assumption | apply lookup_insert_eq].
        -- intros k. destruct (decide (hk = k)) as [<- | Hne].
           ++ rewrite Hp, !lookup_insert_eq. reflexivity.
           ++ rewrite !lookup_insert_ne by assumption. apply IH.
      * intros k. destruct (decide (hk = k)) as [<- | Hne].
        -- rewrite Hp. rewrite IH, Hp. reflexivity.
        -- rewrite lookup_insert_ne by assumption. apply IH.
    + destruct IH as (k & Hp & Hempty). exists k. split; [assumption |].
      rewrite lookup_insert_ne; [assumption |]. intros ->. congruence.
Qed.

Section Metadata.

Context {Reader : Type} (env : Env Reader).

(** C5, as the code has it: metadata extraction selects exactly the keys
    that begin with [X-Amz-] compared byte for byte (case matters), keeps
    the first value of each selected key under the key as it is written, and
    adds [Last-Modified].  It returns whenever no selected key has an empty
    list of values. *)
Theorem metadataHeaders_selects (headers : gmap string (list string))
    (at_ : Time) (sizeLimit : Z) :
  (forall k, HasPrefix k "X-Amz-" = true -> headers !! k <> Some []) ->
  exists meta err,
    metadataHeaders env headers at_ sizeLimit = Some (meta, err)
    /\ forall k, meta !! k =
         if String.eqb k "Last-Modified" then Some (formatHeaderTime env at_)
         else if HasPrefix k "X-Amz-" then headers !! k ≫= head
         else None.
Proof.
  intros Hvalues. unfold metadataHeaders.
  pose proof (metadataHeaders_loop_spec headers) as Hloop.
  destruct (metadataHeaders_loop headers) as [meta |]; simpl.
  - set (meta' := <["Last-Modified" := formatHeaderTime env at_]> meta).
    assert (Hlookup : forall k, meta' !! k =
              if String.eqb k "Last-Modified" then Some (formatHeaderTime env at_)
              else if HasPrefix k "X-Amz-" then headers !! k ≫= head
              else None).
    { intros k. subst meta'. destruct (String.eqb_spec k "Last-Modified") as [-> | Hne].
      - apply lookup_insert_eq.
      - rewrite lookup_insert_ne by congruence. apply Hloop. }
    destruct ((sizeLimit >? 0) && (metadataSize meta' >? sizeLimit));
      eexists _, _; (split; [reflexivity | exact Hlookup]).
  - destruct Hloop as (k & Hp & Hempty). exfalso. exact (Hvalues k Hp Hempty).
Qed.

(** C6: with a positive size limit, metadata extraction fails with
    [MetadataTooLarge] exactly when the sum of [len(key) + len(value)] over
    the entries of the extracted map, the injected [Last-Modified] entry
    included, exceeds the limit; only these raw bytes are counted. *)
Theorem metadataHeaders_too_large (headers : gmap string (list string))
    (at_ : Time) (sizeLimit : Z) (meta : gmap string string) (err : option error) :
  0 < sizeLimit ->
  metadataHeaders env headers at_ sizeLimit = Some (meta, err) ->
  Spec.metadataBytes meta <= max_int64 ->
  meta !! "Last-Modified" = Some (formatHeaderTime env at_)
  /\ (err = Some (CodeError ErrMetadataTooLarge) <-> Spec.metadataBytes meta > sizeLimit)
  /\ (err = None <-> Spec.metadataBytes meta <= sizeLimit).
Proof.
  intros Hpos Hrun Hfit. unfold metadataHeaders in Hrun.
  destruct (metadataHeaders_loop headers) as [meta0 |]; [| discriminate].
  simpl in Hrun.
  set (meta' := <["Last-Modified" := formatHeaderTime env at_]> meta0) in *.
  destruct (Z.gtb_spec sizeLimit 0) as [_ | Hn]; [| lia]. cbn [andb] in Hrun.
  destruct (Z.gtb_spec (metadataSize meta') sizeLimit) as [Hbig | Hsmall];
    injection Hrun as <- <-;
    (split; [apply lookup_insert_eq |]);
    rewrite metadataSize_exact in * by exact Hfit;
    (split; split; intros H; (reflexivity || discriminate || lia)).
Qed.

End Metadata.

Lemma metadataHeaders_selects_witness :
  exists meta err,
    metadataHeaders Fixture.env {[ "X-Amz-Meta-Color" := ["red"; "blue"] ]}
      Fixture.noon 2000 = Some (meta, err)
    /\ forall k, meta !! k =
         if String.eqb k "Last-Modified"
         then Some (formatHeaderTime Fixture.env Fixture.noon)
         else if HasPrefix k "X-Amz-"
              then ({[ "X-Amz-Meta-Color" := ["red"; "blue"] ]}
                      : gmap string (list string)) !! k ≫= head
              else None.
Proof.
  apply (metadataHeaders_selects Fixture.env
           {[ "X-Amz-Meta-Color" := ["red"; "blue"] ]} Fixture.noon 2000).
  intros k _ Hk. apply lookup_singleton_Some in Hk as [_ Hk]. discriminate.
Defined.

(** Counterexample to C5 as the specification words it: a key that begins with
    [X-Amz-] only when case is ignored is not selected. *)
Lemma metadataHeaders_case_counterexample :
  Spec.HasPrefixFold "x-amz-meta-color" "X-Amz-" = true
  /\ exists meta,
       metadataHeaders Fixture.env {[ "x-amz-meta-color" := ["red"] ]}
         Fixture.noon 2000 = Some (meta, None)
       /\ meta !! "x-amz-meta-color" = None.
Proof.
  split; [reflexivity |].
  eexists. split; [vm_compute; reflexivity |]. vm_compute. reflexivity.
Qed.

Lemma metadataHeaders_too_large_witness :
  metadataHeaders Fixture.env {[ "X-Amz-Meta-Color" := ["red"] ]} Fixture.noon 40
  = Some (<[ "Last-Modified" := "Sun, 01 Jul 2018 12:00:00 GMT" ]>
            {[ "X-Amz-Meta-Color" := "red" ]},
          Some (CodeError ErrMetadataTooLarge))
  /\ Spec.metadataBytes (<[ "Last-Modified" := "Sun, 01 Jul 2018 12:00:00 GMT" ]>
                           {[ "X-Amz-Meta-Color" := "red" ]}) > 40.
Proof.
  assert (Hrun : metadataHeaders Fixture.env {[ "X-Amz-Meta-Color" := ["red"] ]}
                   Fixture.noon 40
                 = Some (<[ "Last-Modified" := "Sun, 01 Jul 2018 12:00:00 GMT" ]>
                           {[ "X-Amz-Meta-Color" := "red" ]},
                         Some (CodeError ErrMetadataTooLarge)))
    by (vm_compute; reflexivity).
  split; [exact Hrun |].
  apply (metadataHeaders_too_large Fixture.env _ _ 40 _ _ ltac:(lia) Hrun);
    [vm_compute; discriminate | reflexivity].
Defined.

(** ** Response writers and header maps *)

Lemma lookup_Header_Set (h : Header) (k v k' : string) :
  Header_Set h k v !! k' =
  if decide (CanonicalMIMEHeaderKey k = k') then Some [v] else h !! k'.
Proof. unfold Header_Set. apply lookup_insert. Qed.

Lemma rw_sent_SetHeader (k v : string) (w : ResponseWriter) :
  rw_sent (SetHeader k v w) = rw_sent w.
Proof. reflexivity. Qed.

Lemma rw_sent_setMetadataHeaders (kvs : list (string * string)) : forall w,
  rw_sent (setMetadataHeaders kvs w) = rw_sent w.
Proof.
  induction kvs as [| kv kvs IH]; intros w; [reflexivity |].
  unfold setMetadataHeaders in *. simpl. rewrite IH. reflexivity.
Qed.

Lemma rw_sent_writeHeader (o : option ObjectRange) (sz : Z) (w : ResponseWriter) :
  rw_sent (writeHeader o sz w) = rw_sent w.
Proof. destruct o; reflexivity. Qed.

Lemma wire_header_Write (data : list Byte.byte) (w : ResponseWriter) :
  wire_header (Write data w) = wire_header w.
Proof.
  unfold wire_header, Write, WriteHeader.
  destruct (rw_sent w) as [[status h] |] eqn:Hsent; cbn [rw_sent rw_header];
    rewrite ?Hsent; reflexivity.
Qed.

Lemma wire_header_fresh (w : ResponseWriter) :
  rw_sent w = None -> wire_header w = rw_header w.
Proof. unfold wire_header. intros ->. reflexivity. Qed.

Create Rewrite HintDb handler_state.

Section StateEquations.

Context {B : Type}.
Implicit Types (s : State B) (f : ResponseWriter -> ResponseWriter).

Lemma st_resp_with_resp f s : st_resp (with_resp f s) = f (st_resp s).
Proof. reflexivity. Qed.
Lemma st_ticks_with_resp f s : st_ticks (with_resp f s) = st_ticks s.
Proof. reflexivity. Qed.
Lemma st_calls_with_resp f s : st_calls (with_resp f s) = st_calls s.
Proof. reflexivity. Qed.
Lemma st_uploads_with_resp f s : st_uploads (with_resp f s) = st_uploads s.
Proof. reflexivity. Qed.
Lemma st_resp_tick s : st_resp (tick s) = st_resp s.
Proof. reflexivity. Qed.
Lemma st_ticks_tick s : st_ticks (tick s) = S (st_ticks s).
Proof. reflexivity. Qed.
Lemma st_calls_tick s : st_calls (tick s) = st_calls s.
Proof. reflexivity. Qed.
Lemma st_uploads_tick s : st_uploads (tick s) = st_uploads s.
Proof. reflexivity. Qed.
Lemma st_resp_called c (b : B) s : st_resp (called c b s) = st_resp s.
Proof. reflexivity. Qed.
Lemma st_ticks_called c (b : B) s : st_ticks (called c b s) = st_ticks s.
Proof. reflexivity. Qed.
Lemma st_calls_called c (b : B) s : st_calls (called c b s) = (st_calls s ++ [c])%list.
Proof. reflexivity. Qed.
Lemma st_uploads_called c (b : B) s : st_uploads (called c b s) = st_uploads s.
Proof. reflexivity. Qed.

End StateEquations.

#[export] Hint Rewrite @st_resp_with_resp @st_ticks_with_resp @st_calls_with_resp
  @st_uploads_with_resp @st_resp_tick @st_ticks_tick @st_calls_tick @st_uploads_tick
  @st_resp_called @st_ticks_called @st_calls_called @st_uploads_called
  : handler_state.

(** A header set under another canonical key leaves the lookup alone; one
    set under the key itself decides it. *)
Ltac header_lookup :=
  repeat (rewrite lookup_Header_Set;
          match goal with
          | |- context [decide (CanonicalMIMEHeaderKey ?k = ?k')] =>
              let E := fresh "E" in
              destruct (decide (CanonicalMIMEHeaderKey k = k')) as [E | E];
              [ try (vm_compute in E; discriminate E)
              | try (exfalso; apply E; vm_compute; reflexivity) ]
          end).

Section HandlerProperties.

Context {Reader B : Type} (storage : Backend Reader B) (env : Env Reader).

(** The headers of a successful GET: [Last-Modified] is the clock reading
    and [ETag] the quoted hex of the hash of the object the backend
    returned, whatever the metadata of the object holds. *)
Lemma getObject_headers (g : GoFakeS3) (bucket object : string) (r : Request Reader)
    (s s' : State B) :
  rw_sent (st_resp s) = None ->
  getObject storage env g bucket object r s = Done None s' ->
  exists rnge obj b',
    parseRangeHeader (Header_Get (ReqHeader r) "Range") = Ok rnge
    /\ GetObject bucket object rnge (st_backend s) = (Ok (Some obj), b')
    /\ wire_header (st_resp s') !! "Last-Modified"
       = Some [formatHeaderTime env (timeSource g (st_ticks s))]
    /\ wire_header (st_resp s') !! "Etag"
       = Some [quoted (Hex.EncodeToString (Hash obj))].
Proof.
  intros Hfresh Hrun. unfold getObject in Hrun.
  destruct (parseRangeHeader _) as [rnge | e] eqn:Hrange; [| discriminate].
  cbv [mbind M_bind on_backend] in Hrun.
  destruct (GetObject bucket object rnge (st_backend s)) as [res b'] eqn:Hget.
  destruct res as [[obj |] | e]; try discriminate.
  cbv [on_resp Now mret M_ret] in Hrun.
  injection Hrun as _ <-.
  exists rnge, obj, b'. split; [reflexivity |]. split; [exact Hget |].
  autorewrite with handler_state. rewrite wire_header_Write.
  rewrite wire_header_fresh
    by (rewrite !rw_sent_SetHeader, rw_sent_setMetadataHeaders, !rw_sent_SetHeader,
          rw_sent_writeHeader; exact Hfresh).
  cbn [rw_header SetHeader].
  split; header_lookup; reflexivity.
Qed.

(** C9: on every successful GET of an object, the [Last-Modified] header
    of the response is the current time of the injected clock; it replaces
    whatever [Last-Modified] the metadata map of the object holds, so the
    header does not carry the stored modification time. *)
Theorem getObject_Last_Modified (g : GoFakeS3) (bucket object : string)
    (r : Request Reader) (s s' : State B) :
  rw_sent (st_resp s) = None ->
  getObject storage env g bucket object r s = Done None s' ->
  wire_header (st_resp s') !! "Last-Modified"
  = Some [formatHeaderTime env (timeSource g (st_ticks s))].
Proof.
  intros Hfresh Hrun.
  destruct (getObject_headers g bucket object r s s' Hfresh Hrun)
    as (rnge & obj & b' & _ & _ & Hlm & _).
  exact Hlm.
Qed.

(** The [ETag] of a successful GET is the quoted lower-case hex of the hash
    of the object. *)
Lemma getObject_ETag (g : GoFakeS3) (bucket object : string)
    (r : Request Reader) (s s' : State B) :
  rw_sent (st_resp s) = None ->
  getObject storage env g bucket object r s = Done None s' ->
  exists rnge obj b',
    GetObject bucket object rnge (st_backend s) = (Ok (Some obj), b')
    /\ wire_header (st_resp s') !! "Etag" = Some [quoted (Hex.EncodeToString (Hash obj))].
Proof.
  intros Hfresh Hrun.
  destruct (getObject_headers g bucket object r s s' Hfresh Hrun)
    as (rnge & obj & b' & _ & Hget & _ & Hetag).
  eauto.
Qed.

(** The same for HEAD. *)
Lemma headObject_ETag (g : GoFakeS3) (bucket object : string)
    (r : Request Reader) (s s' : State B) :
  rw_sent (st_resp s) = None ->
  headObject storage env g bucket object r s = Done None s' ->
  exists obj b',
    HeadObject bucket object (st_backend s) = (Ok (Some obj), b')
    /\ wire_header (st_resp s') !! "Etag" = Some [quoted (Hex.EncodeToString (Hash obj))].
Proof.
  intros Hfresh Hrun. unfold headObject in Hrun.
  cbv [mbind M_bind on_backend] in Hrun.
  destruct (HeadObject bucket object (st_backend s)) as [res b'] eqn:Hhead.
  destruct res as [[obj |] | e]; try discriminate.
  cbv [on_resp Now mret M_ret] in Hrun.
  injection Hrun as <-.
  exists obj, b'. split; [reflexivity |].
  autorewrite with handler_state. rewrite wire_header_Write.
  rewrite wire_header_fresh
    by (rewrite !rw_sent_SetHeader, rw_sent_setMetadataHeaders, !rw_sent_SetHeader;
        exact Hfresh).
  cbn [rw_header SetHeader].
  header_lookup; reflexivity.
Qed.

(** Every hex encoding of a 16-byte hash has 32 digits. *)
Lemma EncodeToString_length (h : list Byte.byte) :
  String.length (Hex.EncodeToString h) = (2 * length h)%nat.
Proof. induction h as [| b h IH]; simpl; [reflexivity | rewrite IH; lia]. Qed.

Lemma append_length (x y : string) :
  String.length (x ++ y) = (String.length x + String.length y)%nat.
Proof. induction x as [| c x IH]; simpl; [reflexivity | rewrite IH; reflexivity]. Qed.

Lemma quoted_length (x : string) : String.length (quoted x) = (2 + String.length x)%nat.
Proof.
  unfold quoted, dquote. rewrite !append_length. cbn [String.length]. lia.
Qed.

(** The fixed [ETag] of the two create handlers is the quoted hex of no
    16-byte hash: it has 31 digits. *)
Lemma created_etag_no_hash (h : list Byte.byte) :
  length h = 16%nat -> created_etag <> quoted (Hex.EncodeToString h).
Proof.
  intros Hlen Heq. apply (f_equal String.length) in Heq.
  unfold created_etag in Heq.
  rewrite !quoted_length, EncodeToString_length, Hlen in Heq.
  cbn [String.length] in Heq. lia.
Qed.

(** C1 at PUT: when [createObject] succeeds the response carries the fixed
    [ETag] of the handler, which is the quoted hex of no 16-byte hash, the
    MD5 of the stored object included. *)
Theorem createObject_ETag (g : GoFakeS3) (bucket object : string)
    (r : Request Reader) (s s' : State B) :
  rw_sent (st_resp s) = None ->
  createObject storage env g bucket object r s = Done None s' ->
  wire_header (st_resp s') !! "Etag" = Some [created_etag]
  /\ forall h, length h = 16%nat ->
       wire_header (st_resp s') !! "Etag" <> Some [quoted (Hex.EncodeToString h)].
Proof.
  intros Hfresh Hrun.
  assert (Hetag : wire_header (st_resp s') !! "Etag" = Some [created_etag]).
  { unfold createObject in Hrun.
    cbv [mbind M_bind Now lift_panic] in Hrun.
    destruct (metadataHeaders env (ReqHeader r) _ _) as [[meta [e |]] |];
      try discriminate.
    cbv [mret M_ret] in Hrun.
    destruct (ParseInt _ 64) as [size err].
    destruct (bool_decide (err ≠ None) || (size <=? 0)); [discriminate |].
    destruct (len object >? KeySizeLimit); [discriminate |].
    destruct (bodyReader env g r) as [rdr | e]; [| discriminate].
    cbv [on_backend] in Hrun.
    destruct (PutObject bucket object meta rdr size _) as [perr b'].
    destruct perr as [e |]; [discriminate |].
    cbv [on_resp] in Hrun. injection Hrun as <-.
    autorewrite with handler_state. rewrite wire_header_Write.
    rewrite wire_header_fresh by (rewrite !rw_sent_SetHeader; exact Hfresh).
    cbn [rw_header SetHeader].
    header_lookup; reflexivity. }
  split; [exact Hetag |].
  intros h Hlen. rewrite Hetag. intros Heq.
  apply (created_etag_no_hash h Hlen). congruence.
Qed.

(** The same at the browser-upload POST. *)
Lemma createObjectBrowserUpload_ETag (g : GoFakeS3) (bucket : string)
    (r : Request Reader) (s s' : State B) :
  rw_sent (st_resp s) = None ->
  createObjectBrowserUpload storage env g bucket r s = Done None s' ->
  wire_header (st_resp s') !! "Etag" = Some [created_etag].
Proof.
  intros Hfresh Hrun. unfold createObjectBrowserUpload in Hrun.
  destruct (MultipartForm r) as [form |]; [| discriminate].
  destruct (default [] (Value form !! "key")) as [| key [| ? ?]]; try discriminate.
  destruct (default [] (File form !! "file")) as [| fileHeader [| ? ?]]; try discriminate.
  destruct (fh_Open fileHeader) as [infile | e]; [| discriminate].
  cbv [mbind M_bind Now lift_panic] in Hrun.
  destruct (metadataHeaders env (Value form) _ _) as [[meta [e |]] |];
    try discriminate.
  cbv [mret M_ret] in Hrun.
  destruct (len key >? KeySizeLimit); [discriminate |].
  cbv [on_backend] in Hrun.
  destruct (PutObject bucket key meta infile _ _) as [perr b'].
  destruct perr as [e |]; [discriminate |].
  cbv [on_resp] in Hrun. injection Hrun as <-.
  autorewrite with handler_state. rewrite wire_header_Write.
  rewrite wire_header_fresh by (rewrite !rw_sent_SetHeader; exact Hfresh).
  cbn [rw_header SetHeader].
  header_lookup; reflexivity.
Qed.

(** C8, as the code has it: when metadata extraction has succeeded and the
    [Content-Length] header is absent, unparseable or not positive,
    [createObject] returns [MissingContentLength] with the clock read once
    and nothing else done: no call of the backend, nothing written.  And
    whatever the request, every call [createObject] makes to the backend is
    a [PutObject] with a positive size: a plain PUT does not create a
    zero-byte object. *)
Theorem createObject_MissingContentLength (g : GoFakeS3) (bucket object : string)
    (r : Request Reader) (s : State B) :
  (forall meta,
     metadataHeaders env (ReqHeader r) (timeSource g (st_ticks s)) (metadataSizeLimit g)
     = Some (meta, None) ->
     (ReqHeader r !! "Content-Length" = None
      \/ Spec.parsed_bound (Header_Get (ReqHeader r) "Content-Length") = None
      \/ exists n, Spec.parsed_bound (Header_Get (ReqHeader r) "Content-Length") = Some n
                   /\ n <= 0) ->
     createObject storage env g bucket object r s
     = Done (Some (CodeError ErrMissingContentLength)) (tick s))
  /\ (forall res s',
        createObject storage env g bucket object r s = Done res s' ->
        st_calls s' = st_calls s
        \/ exists meta size,
             st_calls s' = (st_calls s ++ [CallPutObject bucket object meta size])%list
             /\ 0 < size).
Proof.
  split.
  - intros meta Hmeta Hlen. unfold createObject.
    cbv [mbind M_bind Now lift_panic]. rewrite Hmeta. cbv [mret M_ret].
    pose proof (ParseInt_spec (Header_Get (ReqHeader r) "Content-Length")) as Hparse.
    assert (Hlen' : Spec.parsed_bound (Header_Get (ReqHeader r) "Content-Length") = None
                    \/ exists n, Spec.parsed_bound (Header_Get (ReqHeader r) "Content-Length")
                                 = Some n /\ n <= 0).
    { destruct Hlen as [Habsent | [Hnone | Hsome]]; [left | left; exact Hnone | right; exact Hsome].
      unfold Header_Get.
      replace (CanonicalMIMEHeaderKey "Content-Length") with "Content-Length"
        by (vm_compute; reflexivity).
      rewrite Habsent. reflexivity. }
    clear Hlen. destruct Hlen' as [Hnone | (n & Hsome & Hn)].
    + rewrite Hnone in Hparse. destruct Hparse as (x & e & ->).
      rewrite bool_decide_eq_true_2 by discriminate. reflexivity.
    + rewrite Hsome in Hparse. rewrite Hparse.
      destruct (Z.leb_spec n 0) as [_ | Hpos]; [| lia].
      rewrite orb_true_r. reflexivity.
  - intros res s' Hrun. unfold createObject in Hrun.
    cbv [mbind M_bind Now lift_panic] in Hrun.
    destruct (metadataHeaders env (ReqHeader r) _ _) as [[meta [e |]] |];
      try discriminate; cbv [mret M_ret] in Hrun.
    { injection Hrun as _ <-. left. reflexivity. }
    destruct (ParseInt _ 64) as [size err].
    destruct (bool_decide (err ≠ None)); cbn [orb] in Hrun.
    { injection Hrun as _ <-. left. reflexivity. }
    destruct (Z.leb_spec size 0) as [_ | Hpos].
    { injection Hrun as _ <-. left. reflexivity. }
    destruct (len object >? KeySizeLimit).
    { injection Hrun as _ <-. left. reflexivity. }
    destruct (bodyReader env g r) as [rdr | e].
    2: { injection Hrun as _ <-. left. reflexivity. }
    cbv [on_backend] in Hrun.
    destruct (PutObject bucket object meta rdr size _) as [perr b'].
    right. exists meta, size. split; [| exact Hpos].
    destruct perr as [e |].
    + injection Hrun as _ <-. reflexivity.
    + cbv [on_resp] in Hrun. injection Hrun as _ <-.
      autorewrite with handler_state. reflexivity.
Qed.

(** C2, as the code has it: a request without [x-amz-date] goes to the
    inner handler with the clock unread.  With the header, the request time
    is the parsed date, or the zero time when the header does not parse; the
    middleware answers [RequestTimeTooSkewed] when that time differs from the
    clock by more than the limit, and hands the request on otherwise.  An
    unparseable header is checked like any other, against the zero time. *)
Theorem timeSkewMiddleware_checks (g : GoFakeS3) (handler : Request Reader -> M (State B) unit)
    (rq : Request Reader) (s : State B) :
  min_int64 < timeSkew g < max_int64 ->
  let timeHdr := Header_Get (ReqHeader rq) "x-amz-date" in
  let at_ := timeSource g (st_ticks s) in
  let rqTime := default zeroTime (time_Parse env timeHdr) in
  (timeHdr = "" -> timeSkewMiddleware env g handler rq s = handler rq s)
  /\ (timeHdr <> "" -> Z.abs (at_ - rqTime) > timeSkew g ->
      timeSkewMiddleware env g handler rq s
      = httpError env rq (requestTimeTooSkewed at_ (timeSkew g)) (tick s))
  /\ (timeHdr <> "" -> Z.abs (at_ - rqTime) <= timeSkew g ->
      timeSkewMiddleware env g handler rq s = handler rq (tick s)).
Proof.
  intros Hlimit timeHdr at_ rqTime.
  assert (Hneg : neg64 (timeSkew g) = - timeSkew g).
  { apply wrap64_id. unfold in_int64, min_int64, max_int64 in *. lia. }
  assert (Hskew : ((Sub at_ rqTime <? neg64 (timeSkew g)) || (Sub at_ rqTime >? timeSkew g))
                  = true <-> Z.abs (at_ - rqTime) > timeSkew g).
  { rewrite Hneg, orb_true_iff, Z.ltb_lt, Z.gtb_gt. unfold Sub.
    destruct (Z.gtb_spec (at_ - rqTime) max_int64);
      [| destruct (Z.ltb_spec (at_ - rqTime) min_int64)];
      unfold min_int64, max_int64 in *; lia. }
  unfold timeSkewMiddleware. fold timeHdr. fold rqTime.
  repeat split.
  - intros ->. reflexivity.
  - intros Hne Hfar.
    destruct (String.eqb_spec timeHdr "") as [? | _]; [contradiction |].
    cbv [negb mbind M_bind Now]. fold at_.
    apply Hskew in Hfar. rewrite Hfar. reflexivity.
  - intros Hne Hnear.
    destruct (String.eqb_spec timeHdr "") as [? | _]; [contradiction |].
    cbv [negb mbind M_bind Now]. fold at_.
    destruct ((Sub at_ rqTime <? neg64 (timeSkew g)) || (Sub at_ rqTime >? timeSkew g))
      eqn:Hcmp; [| reflexivity].
    destruct Hskew as [Hfar _]. specialize (Hfar eq_refl). lia.
Qed.

(** [ParseInt] with the size of [int] fails or leaves the range 1..10000
    exactly when the text denotes no integer of that range. *)
Lemma partNumberOf_spec (r : Request Reader) :
  match Spec.decimal_value (Values_Get (Query r) "partNumber") with
  | Some n =>
      if (1 <=? n) && (n <=? MaxUploadPartNumber) then partNumberOf r = Ok n
      else partNumberOf r = Err (CodeError ErrInvalidPart)
  | None => partNumberOf r = Err (CodeError ErrInvalidPart)
  end.
Proof.
  unfold partNumberOf. change IntSize with 64.
  pose proof (ParseInt_spec (Values_Get (Query r) "partNumber")) as Hparse.
  unfold Spec.parsed_bound in Hparse.
  destruct (Spec.decimal_value _) as [n |]; simpl in Hparse.
  - destruct (Z.leb_spec min_int64 n) as [Hlo | Hlo];
      [destruct (Z.leb_spec n max_int64) as [Hhi | Hhi] |]; simpl in Hparse.
    + rewrite Hparse.
      rewrite bool_decide_eq_false_2 by (intros H; apply H; reflexivity).
      cbn [orb]. unfold MaxUploadPartNumber.
      destruct (Z.leb_spec n 0), (Z.leb_spec 1 n), (Z.gtb_spec n 10000),
        (Z.leb_spec n 10000); simpl; try reflexivity; lia.
    + destruct Hparse as (x & e & ->).
      rewrite bool_decide_eq_true_2 by discriminate. cbn [orb].
      unfold MaxUploadPartNumber, max_int64 in *.
      destruct (Z.leb_spec n 10000); [lia |]. rewrite andb_false_r. reflexivity.
    + destruct Hparse as (x & e & ->).
      rewrite bool_decide_eq_true_2 by discriminate. cbn [orb].
      unfold min_int64 in *.
      destruct (Z.leb_spec 1 n); [lia |]. reflexivity.
  - destruct Hparse as (x & e & ->).
    rewrite bool_decide_eq_true_2 by discriminate. reflexivity.
Qed.

(** C7: the put-part handler rejects with [InvalidPart] exactly when the
    [partNumber] query value is unparseable, below 1 or above 10000, and it
    does so before anything else; a part number in 1..10000 passes this
    check. *)
Theorem putMultipartUploadPart_InvalidPart (g : GoFakeS3) (bucket object uploadID : string)
    (r : Request Reader) (s : State B) :
  let q := Values_Get (Query r) "partNumber" in
  let rejected :=
    match Spec.decimal_value q with
    | None => True
    | Some n => n < 1 \/ n > 10000
    end in
  (partNumberOf r = Err (CodeError ErrInvalidPart) <-> rejected)
  /\ (rejected ->
      putMultipartUploadPart env g bucket object uploadID r s
      = Done (Some (CodeError ErrInvalidPart)) s)
  /\ (forall n, Spec.decimal_value q = Some n -> 1 <= n <= 10000 ->
      partNumberOf r = Ok n).
Proof.
  intros q rejected. pose proof (partNumberOf_spec r) as Hspec.
  fold q in Hspec. subst rejected. unfold MaxUploadPartNumber in Hspec.
  assert (Hiff : partNumberOf r = Err (CodeError ErrInvalidPart) <->
                 match Spec.decimal_value q with
                 | Some n => n < 1 \/ n > 10000
                 | None => True
                 end).
  { destruct (Spec.decimal_value q) as [n |]; [| tauto].
    destruct (Z.leb_spec 1 n), (Z.leb_spec n 10000); simpl in Hspec;
      rewrite Hspec; split; intros Hcase; try reflexivity; try discriminate; lia. }
  split; [exact Hiff |]. split.
  - intros Hrej. apply Hiff in Hrej. unfold putMultipartUploadPart.
    rewrite Hrej. reflexivity.
  - intros n Hn Hrange. rewrite Hn in Hspec.
    destruct (Z.leb_spec 1 n), (Z.leb_spec n 10000); simpl in Hspec;
      try exact Hspec; lia.
Qed.

(** C10: when the body of a put-part request has been read without error
    and the number of bytes read differs from the [ContentLength] of the
    request, the handler returns [IncompleteBody] and leaves the state as it
    found it: the part is not added to the parts table of the upload. *)
Theorem putMultipartUploadPart_IncompleteBody (g : GoFakeS3)
    (bucket object uploadID : string) (r : Request Reader) (s : State B)
    (partNumber size : Z) (upload : multipartUpload) (rdr : Reader)
    (body : list Byte.byte) :
  partNumberOf r = Ok partNumber ->
  ParseInt (Header_Get (ReqHeader r) "Content-Length") 64 = (size, None) ->
  0 < size ->
  st_uploads s !! uploadID = Some upload ->
  bodyReader env g r = Ok rdr ->
  ReadAll env rdr size = Ok body ->
  Z.of_nat (length body) <> ContentLength r ->
  putMultipartUploadPart env g bucket object uploadID r s
  = Done (Some (CodeError ErrIncompleteBody)) s.
Proof.
  intros Hpart Hsize Hpos Hupload Hreader Hread Hdiff.
  unfold putMultipartUploadPart. rewrite Hpart, Hsize.
  rewrite bool_decide_eq_false_2 by (intros H; apply H; reflexivity).
  destruct (Z.leb_spec size 0) as [? | _]; [lia |]. cbn [orb].
  cbv [mbind M_bind uploader_Get]. rewrite Hupload, Hreader, Hread.
  destruct (Z.eqb_spec (Z.of_nat (length body)) (ContentLength r)) as [? | _];
    [contradiction |].
  reflexivity.
Qed.

End HandlerProperties.

(** ** The theorems at concrete requests *)

Section Examples.

Import Fixture.

Lemma createObject_ETag_witness :
  exists s' obj,
    createObject storage env s3 "bucket" "object"
      (request "PUT" ∅ {[ "Content-Length" := ["5"] ]} 5 hello) start = Done None s'
    /\ st_backend s' !! ("bucket", "object") = Some obj
    /\ Hex.EncodeToString (Hash obj) = "5d41402abc4b2a76b9719d911017c592"
    /\ wire_header (st_resp s') !! "Etag" = Some [created_etag]
    /\ wire_header (st_resp s') !! "Etag"
       <> Some [quoted (Hex.EncodeToString (Hash obj))].
Proof.
  destruct (createObject storage env s3 "bucket" "object"
              (request "PUT" ∅ {[ "Content-Length" := ["5"] ]} 5 hello) start)
    as [[e |] s' |] eqn:Hrun;
    [vm_compute in Hrun; discriminate Hrun | | vm_compute in Hrun; discriminate Hrun].
  pose proof (createObject_ETag storage env s3 "bucket" "object" _ start s'
                eq_refl Hrun) as [Hetag Hno].
  assert (Hobj : exists obj, st_backend s' !! ("bucket", "object") = Some obj
                             /\ Hash obj = md5_hello).
  { vm_compute in Hrun. injection Hrun as <-. eexists. split; vm_compute; reflexivity. }
  destruct Hobj as (obj & Hstored & Hhash).
  exists s', obj. repeat split; try assumption.
  - rewrite Hhash. vm_compute. reflexivity.
  - apply Hno. rewrite Hhash. reflexivity.
Defined.

(** Counterexample to C2 as the specification words it: a header that does not parse
    is not bypassed.  With the clock at noon of July 1, 2018 the request is
    answered with status 403 and the inner handler is not run. *)
Lemma timeSkewMiddleware_unparseable_counterexample :
  time_Parse env "yesterday" = None
  /\ timeSkewMiddleware env s3 inner
       (request "GET" ∅ {[ "X-Amz-Date" := ["yesterday"] ]} 0 []) start
     = httpError env (request "GET" ∅ {[ "X-Amz-Date" := ["yesterday"] ]} 0 [])
         (requestTimeTooSkewed noon DefaultSkewLimit) (tick start)
  /\ timeSkewMiddleware env s3 inner
       (request "GET" ∅ {[ "X-Amz-Date" := ["yesterday"] ]} 0 []) start
     <> inner (request "GET" ∅ {[ "X-Amz-Date" := ["yesterday"] ]} 0 []) (tick start)
  /\ timeSkewMiddleware env s3 inner
       (request "GET" ∅ {[ "X-Amz-Date" := ["yesterday"] ]} 0 []) start
     <> inner (request "GET" ∅ {[ "X-Amz-Date" := ["yesterday"] ]} 0 []) start
  /\ exists s',
       timeSkewMiddleware env s3 inner
         (request "GET" ∅ {[ "X-Amz-Date" := ["yesterday"] ]} 0 []) start = Done tt s'
       /\ rw_sent (st_resp s') = Some (403, ∅).
Proof.
  split; [reflexivity |]. split; [vm_compute; reflexivity |].
  split; [vm_compute; discriminate |].
  split; [vm_compute; discriminate |].
  eexists. split; vm_compute; reflexivity.
Qed.

Lemma timeSkewMiddleware_checks_witness :
  timeSkewMiddleware env s3 inner (request "GET" ∅ ∅ 0 []) start
  = inner (request "GET" ∅ ∅ 0 []) start
  /\ timeSkewMiddleware env s3 inner
       (request "GET" ∅ {[ "X-Amz-Date" := ["20180701T123000Z"] ]} 0 []) start
     = httpError env (request "GET" ∅ {[ "X-Amz-Date" := ["20180701T123000Z"] ]} 0 [])
         (requestTimeTooSkewed noon DefaultSkewLimit) (tick start)
  /\ timeSkewMiddleware env s3 inner
       (request "GET" ∅ {[ "X-Amz-Date" := ["20180701T120500Z"] ]} 0 []) start
     = inner (request "GET" ∅ {[ "X-Amz-Date" := ["20180701T120500Z"] ]} 0 [])
         (tick start).
Proof.
  assert (Hlimit : min_int64 < timeSkew s3 < max_int64) by (vm_compute; split; reflexivity).
  split; [| split].
  - apply (timeSkewMiddleware_checks env s3 inner (request "GET" ∅ ∅ 0 []) start Hlimit).
    reflexivity.
  - apply (timeSkewMiddleware_checks env s3 inner
             (request "GET" ∅ {[ "X-Amz-Date" := ["20180701T123000Z"] ]} 0 [])
             start Hlimit).
    + vm_compute. discriminate.
    + vm_compute. reflexivity.
  - apply (timeSkewMiddleware_checks env s3 inner
             (request "GET" ∅ {[ "X-Amz-Date" := ["20180701T120500Z"] ]} 0 [])
             start Hlimit).
    + vm_compute. discriminate.
    + vm_compute. discriminate.
Defined.

Lemma putMultipartUploadPart_InvalidPart_witness :
  putMultipartUploadPart env s3 "bucket" "object" "upload-1"
    (request "PUT" {[ "partNumber" := ["10001"] ]} {[ "Content-Length" := ["5"] ]} 5 hello)
    with_upload
  = Done (Some (CodeError ErrInvalidPart)) with_upload
  /\ partNumberOf (request "PUT" {[ "partNumber" := ["10000"] ]} ∅ 5 hello) = Ok 10000.
Proof.
  split.
  - apply (putMultipartUploadPart_InvalidPart env s3 "bucket" "object" "upload-1"
             (request "PUT" {[ "partNumber" := ["10001"] ]}
                {[ "Content-Length" := ["5"] ]} 5 hello) with_upload).
    vm_compute. right. reflexivity.
  - apply (putMultipartUploadPart_InvalidPart (B := Store) env s3 "bucket" "object" "upload-1"
             (request "PUT" {[ "partNumber" := ["10000"] ]} ∅ 5 hello) with_upload).
    + vm_compute. reflexivity.
    + lia.
Defined.

(** Counterexample to C8 as the specification words it: without [Content-Length] but
    with metadata over the limit, the error is [MetadataTooLarge]. *)
Lemma createObject_MetadataTooLarge_counterexample :
  Header_Get ({[ "X-Amz-Meta-Note" := [repeat_byte 2000 "a"] ]}) "Content-Length" = ""
  /\ createObject storage env s3 "bucket" "object"
       (request "PUT" ∅ {[ "X-Amz-Meta-Note" := [repeat_byte 2000 "a"] ]} 0 []) start
     = Done (Some (CodeError ErrMetadataTooLarge)) (tick start).
Proof. split; vm_compute; reflexivity. Qed.

Lemma createObject_MissingContentLength_witness :
  createObject storage env s3 "bucket" "object"
    (request "PUT" ∅ {[ "Content-Length" := ["0"] ]} 0 []) start
  = Done (Some (CodeError ErrMissingContentLength)) (tick start).
Proof.
  eapply (createObject_MissingContentLength storage env s3 "bucket" "object"
            (request "PUT" ∅ {[ "Content-Length" := ["0"] ]} 0 []) start).
  - vm_compute. reflexivity.
  - right. right. exists 0. split; [vm_compute; reflexivity | lia].
Defined.

(** The browser upload passes the size of the file on as it is: an empty
    file makes a zero-byte object. *)
Lemma createObjectBrowserUpload_empty_file :
  exists s',
    createObjectBrowserUpload storage env s3 "bucket"
      {| Method := "POST"; Host := "localhost"; URLPath := "/bucket";
         Query := ∅; ReqHeader := ∅; ContentLength := 0; Body := [];
         MultipartForm :=
           Some {| Value := {[ "key" := ["empty"] ]};
                   File := {[ "file" := [{| fh_Size := 0; fh_Open := Ok [] |}] ]} |} |}
      start = Done None s'
    /\ exists meta, st_calls s' = [CallPutObject "bucket" "empty" meta 0].
Proof.
  eexists. split; [vm_compute; reflexivity |].
  eexists. vm_compute. reflexivity.
Qed.

Lemma getObject_Last_Modified_witness :
  Metadata stored_hello !! "Last-Modified" = Some "Mon, 01 Jan 2001 00:00:00 GMT"
  /\ exists s',
       getObject storage env s3 "bucket" "object" (request "GET" ∅ ∅ 0 []) with_object
       = Done None s'
       /\ wire_header (st_resp s') !! "Last-Modified"
          = Some ["Sun, 01 Jul 2018 12:00:00 GMT"].
Proof.
  split; [vm_compute; reflexivity |].
  destruct (getObject storage env s3 "bucket" "object" (request "GET" ∅ ∅ 0 []) with_object)
    as [[e |] s' |] eqn:Hrun;
    [vm_compute in Hrun; discriminate Hrun | | vm_compute in Hrun; discriminate Hrun].
  exists s'. split; [reflexivity |].
  rewrite (getObject_Last_Modified storage env s3 "bucket" "object" _ with_object s'
             eq_refl Hrun).
  vm_compute. reflexivity.
Defined.

Lemma putMultipartUploadPart_IncompleteBody_witness :
  putMultipartUploadPart env s3 "bucket" "object" "upload-1"
    (request "PUT" {[ "partNumber" := ["1"] ]} {[ "Content-Length" := ["5"] ]} 6 hello)
    with_upload
  = Done (Some (CodeError ErrIncompleteBody)) with_upload.
Proof.
  apply (putMultipartUploadPart_IncompleteBody env s3 "bucket" "object" "upload-1"
           (request "PUT" {[ "partNumber" := ["1"] ]} {[ "Content-Length" := ["5"] ]} 6 hello)
           with_upload 1 5 upload_1 hello hello).
  - vm_compute. reflexivity.
  - vm_compute. reflexivity.
  - lia.
  - vm_compute. reflexivity.
  - vm_compute. reflexivity.
  - vm_compute. reflexivity.
  - vm_compute. discriminate.
Defined.

End Examples.
